(** * all-in-one-clipboard: build scripts

    A shallow embedding of the two build-time scripts of the extension,

    - [build/countries/scripts/country_json_api_fetch.py] (country records,
      flag assets and the GResource manifest), and
    - [gnome-extensions/build-aux/extract-data-strings.py] (translation
      template extraction),

    together with the properties the design document states about them.

    Python [str] values are sequences of Unicode code points, so they are
    modelled as [list N]; literals are written [str "..."].  Sets of strings
    are [gset pystr]; a mutated set or list is passed through explicitly. *)

From Stdlib Require Import ZArith NArith List Ascii String Sorted Permutation.
From Stdlib Require Import Floats.SpecFloat DecimalString.
From stdpp Require Import base decidable countable list gmap sets sorting.
Import ListNotations.

#[local] Set Warnings "-register-all,-clear-no-such-hyp".

Local Open Scope N_scope.
Local Open Scope list_scope.

(** ** Python strings *)

Module PyStr.

Definition pystr : Type := list N.

(** A string literal with ASCII content, as a sequence of code points. *)
Definition str (s : string) : pystr := List.map N_of_ascii (list_ascii_of_string s).
Arguments str : simpl never.

Definition NL : N := 10.
Definition QUOTE : N := 34.
Definition BACKSLASH : N := 92.

(** [str.isspace] on one character: the code points Python treats as
    whitespace ([str.strip], [str.lstrip] without argument strip these). *)
Definition isspace (c : N) : bool :=
  ((9 <=? c) && (c <=? 13)) || ((28 <=? c) && (c <=? 32))
  || (c =? 133) || (c =? 160) || (c =? 5760)
  || ((8192 <=? c) && (c <=? 8202))
  || (c =? 8232) || (c =? 8233) || (c =? 8239) || (c =? 8287) || (c =? 12288).

(** [s.lstrip()], [s.rstrip()], [s.strip()] *)
Fixpoint lstrip (s : pystr) : pystr :=
  match s with
  | c :: rest => if isspace c then lstrip rest else s
  | [] => []
  end.

Definition rstrip (s : pystr) : pystr := rev (lstrip (rev s)).

Definition strip (s : pystr) : pystr := rstrip (lstrip s).

(** [s.startswith(prefix)] *)
Fixpoint startswith (s prefix : pystr) {struct prefix} : bool :=
  match prefix, s with
  | [], _ => true
  | p :: prefix', c :: s' => (c =? p) && startswith s' prefix'
  | _ :: _, [] => false
  end.

(** [s.endswith(suffix)] *)
Definition endswith (s suffix : pystr) : bool := startswith (rev s) (rev suffix).

(** [needle in s] *)
Fixpoint contains (needle s : pystr) : bool :=
  startswith s needle ||
  match s with
  | [] => false
  | _ :: rest => contains needle rest
  end.

(** [a <= b] on strings: lexicographic on code points. *)
Fixpoint str_le (a b : pystr) {struct a} : bool :=
  match a, b with
  | [], _ => true
  | _ :: _, [] => false
  | x :: a', y :: b' => (x <? y) || ((x =? y) && str_le a' b')
  end.

(** [sorted(l, key=key)]: Python's sort is stable, and a stable sort has
    one possible result, here computed by insertion from the right. *)
Section Sorting.
Context {A : Type} (key : A -> pystr).

Fixpoint insert_sorted (x : A) (l : list A) : list A :=
  match l with
  | [] => [x]
  | y :: l' => if str_le (key x) (key y) then x :: l else y :: insert_sorted x l'
  end.

Definition sorted_by (l : list A) : list A := fold_right insert_sorted [] l.

(** The order the sort establishes. *)
Definition key_le (x y : A) : Prop := str_le (key x) (key y) = true.
End Sorting.

(** [sorted(l)] on strings *)
Definition sorted (l : list pystr) : list pystr := sorted_by (fun s => s) l.

(** [sep.join(l)] *)
Fixpoint join (sep : pystr) (l : list pystr) : pystr :=
  match l with
  | [] => []
  | [s] => s
  | s :: rest => s ++ sep ++ join sep rest
  end.

(** [s.replace(old, new)] for a one-character [old]. *)
Definition replace_char (old : N) (new : pystr) (s : pystr) : pystr :=
  flat_map (fun c => if c =? old then new else [c]) s.

End PyStr.
Import PyStr.

(** ** The country script: [country_json_api_fetch.py] *)

Module Countries.

(** *** [format_dial_code] *)

(** [cca2 in [a, b]] *)
Definition code_in (cca2 : pystr) (codes : list pystr) : bool :=
  existsb (fun c => bool_decide (cca2 = c)) codes.

(** [None] is Python's [None]; an absent [root] has been defaulted to the
    empty string and absent [suffixes] to the empty list by the caller. *)
Definition format_dial_code (root : pystr) (suffixes : list pystr) (cca2 : pystr)
  : option pystr :=
  if bool_decide (root = []) then None
  else if bool_decide (root = str "+1") && code_in cca2 [str "US"; str "CA"]
  then Some (str "+1")
  else if bool_decide (root = str "+1") && negb (bool_decide (suffixes = []))
  then Some (root ++ hd [] suffixes)
  else if bool_decide (root = str "+7") && code_in cca2 [str "RU"; str "KZ"]
  then Some (str "+7")
  else
    let suffix := match suffixes with s0 :: _ => s0 | [] => [] end in
    Some (root ++ suffix).

(** *** [update_gresource_xml] *)

Definition svg_rel_path : pystr := str "assets/data/svg/".
Definition file_open_token : pystr := str "<file>".
Definition closing_token : pystr := str "</gresource>".
Definition indent_increment : pystr := str "    ".

(** [svg_rel_path in line and "<file>" in line] *)
Definition is_flag_reference (line : pystr) : bool :=
  contains svg_rel_path line && contains file_open_token line.

(** ["</gresource>" in line] *)
Definition has_closing_tag (line : pystr) : bool := contains closing_token line.

(** [line[:len(line) - len(line.lstrip())]] *)
Definition closing_tag_indent (line : pystr) : pystr :=
  take (length line - length (lstrip line)) line.

(** [f"{file_indent}<file>{svg_rel_path}{filename}</file>\n"] *)
Definition file_entry (file_indent filename : pystr) : pystr :=
  file_indent ++ file_open_token ++ svg_rel_path ++ filename ++ str "</file>" ++ [NL].

(** One iteration of the loop over [lines]; [new_lines] is the list being
    appended to. *)
Definition rewrite_step (svg_files : list pystr) (new_lines : list pystr) (line : pystr)
  : list pystr :=
  if is_flag_reference line then new_lines
  else if has_closing_tag line then
    let file_indent := closing_tag_indent line ++ indent_increment in
    (fold_left (fun acc filename => acc ++ [file_entry file_indent filename])
               (sorted svg_files) new_lines) ++ [line]
  else new_lines ++ [line].

(** The loop of [update_gresource_xml] from the lines read to the lines
    written. *)
Definition rewrite_lines (svg_files : list pystr) (lines : list pystr) : list pystr :=
  fold_left (rewrite_step svg_files) lines [].

(** The manifest file: [None] when [XML_FILE_PATH] does not exist, otherwise
    its lines as [readlines] returns them. *)
Definition manifest : Type := option (list pystr).

(** [update_gresource_xml(svg_files)]: the manifest afterwards and what was
    printed. *)
Definition update_gresource_xml (svg_files : list pystr) (xml : manifest)
  : manifest * list pystr :=
  match xml with
  | None => (None, [str "Error: GResource XML file not found."])
  | Some lines =>
    (Some (rewrite_lines svg_files lines),
     [str "Updating GResource XML..."; str "XML updated successfully."])
  end.

(** *** Records and the driver *)

(** One upstream record, after the [.get(..., default)] accesses of [main]:
    [name.common] may be absent (the sort key and the stored name use
    different defaults), the other fields carry their default when absent. *)
Record country : Type := {
  name_common : option pystr;
  cca2 : pystr;
  idd_root : pystr;
  idd_suffixes : list pystr;
  flags_svg : pystr
}.

(** One element of [processed_list]. *)
Record item : Type := {
  name : pystr;
  code : pystr;
  dial_code : pystr;
  emoji : pystr;
  flag_path : pystr
}.

(** The two files the script rewrites. *)
Record files : Type := {
  json_file : option (list item);
  xml_file : manifest
}.

(** The state of the loop over the countries; [network] holds the outcomes
    of the [urlretrieve] calls still to come ([true] for success). *)
Record loop_state : Type := {
  processed_list : list item;
  downloaded_svgs : list pystr;
  network : list bool
}.

Definition OFFSET : N := 127397.
Definition MAX_CODE_POINT : N := 1114111.
Definition default_prefix : pystr := str "/org/gnome/shell/extensions/all-in-one-clipboard".

Section Driver.
(** [str.lower], [str.upper], [str.isalpha], and the first group of
    [re.search(r'<gresource\s+prefix=...', content)]. *)
Variable str_lower : pystr -> pystr.
Variable str_upper : pystr -> pystr.
Variable str_isalpha : pystr -> bool.
Variable re_search_prefix : pystr -> option pystr.

(** [get_gresource_prefix(xml_path)] *)
Definition get_gresource_prefix (xml : manifest) : pystr :=
  match xml with
  | None => default_prefix
  | Some lines =>
    match re_search_prefix (concat lines) with
    | Some prefix => prefix
    | None => default_prefix
    end
  end.

(** [download_svg(url, cca2)] together with the remaining network
    outcomes; when none is left the download fails. *)
Definition download_svg (url cca2 : pystr) (net : list bool)
  : option pystr * list bool :=
  if bool_decide (url = []) || negb (endswith url (str ".svg")) then (None, net)
  else
    let filename := str_lower cca2 ++ str ".svg" in
    match net with
    | true :: net' => (Some filename, net')
    | false :: net' => (None, net')
    | [] => (None, [])
    end.

(** [get_flag_emoji(country_code)]; [chr] raises above the last code point
    and the [except] turns that into [None]. *)
Definition get_flag_emoji (country_code : pystr) : option pystr :=
  if bool_decide (country_code = []) || negb (length country_code =? 2)%nat then None
  else
    let code := str_upper country_code in
    if negb (str_isalpha code) then None
    else match code with
         | c0 :: c1 :: _ =>
           if (c0 + OFFSET <=? MAX_CODE_POINT) && (c1 + OFFSET <=? MAX_CODE_POINT)
           then Some [c0 + OFFSET; c1 + OFFSET]
           else None
         | _ => None
         end.

(** The body of [for country in data]. *)
Definition process_country (resource_prefix : pystr) (st : loop_state) (c : country)
  : loop_state :=
  let cca2 := cca2 c in
  let name := default (str "Unknown") (name_common c) in
  match format_dial_code (idd_root c) (idd_suffixes c) cca2 with
  | None => st
  | Some [] => st
  | Some dial_code =>
    let '(filename, net') := download_svg (flags_svg c) cca2 (network st) in
    let downloaded := match filename with
                      | Some f => downloaded_svgs st ++ [f]
                      | None => downloaded_svgs st
                      end in
    let flag_resource_path :=
      match filename with
      | Some f => str "resource://" ++ resource_prefix ++ str "/assets/data/svg/" ++ f
      | None => []
      end in
    let item := {| name := name; code := cca2; dial_code := dial_code;
                   emoji := default [] (get_flag_emoji cca2);
                   flag_path := flag_resource_path |} in
    {| processed_list := processed_list st ++ [item];
       downloaded_svgs := downloaded;
       network := net' |}
  end.

(** [data.sort(key=...)] followed by the loop. *)
Definition process_countries (resource_prefix : pystr) (data : list country)
    (net : list bool) : loop_state :=
  fold_left (process_country resource_prefix)
    (sorted_by (fun x => default [] (name_common x)) data)
    {| processed_list := []; downloaded_svgs := []; network := net |}.

(** [main()]: [api] is what [fetch_api_data] returned. *)
Definition main (api : option (list country)) (net : list bool) (fs : files) : files :=
  match api with
  | None | Some [] => fs
  | Some data =>
    let resource_prefix := get_gresource_prefix (xml_file fs) in
    let st := process_countries resource_prefix data net in
    {| json_file := Some (processed_list st);
       xml_file := match downloaded_svgs st with
                   | [] => xml_file fs
                   | _ => fst (update_gresource_xml (downloaded_svgs st) (xml_file fs))
                   end |}
  end.
End Driver.

End Countries.

(** ** The template script: [extract-data-strings.py] *)

Module Extract.

(** A value as [json.load] returns it.  A [dict] is kept as its items in
    iteration order. *)
Inductive json : Type :=
| JNull
| JBool (b : bool)
| JInt (z : Z)
| JFloat (f : spec_float)
| JStr (s : pystr)
| JList (items : list json)
| JDict (items : list (pystr * json)).

Definition TRANSLATABLE_KEYS : gset pystr :=
  {[ str "name"; str "description"; str "keywords" ]}.

Definition SKIP_FILES : gset pystr :=
  {[ str "countries.json"; str "emojisModifier.json" ]}.

(** [escape_string(s)]: first every backslash is replaced by two, then
    every double quote by a backslash and a double quote. *)
Definition escape_string (s : pystr) : pystr :=
  replace_char QUOTE [BACKSLASH; QUOTE]
    (replace_char BACKSLASH [BACKSLASH; BACKSLASH] s).

(** [if isinstance(v, str) and v.strip(): string_set.add(v.strip())] *)
Definition add_if_text (v : json) (string_set : gset pystr) : gset pystr :=
  match v with
  | JStr s => if bool_decide (strip s = []) then string_set
              else {[ strip s ]} ∪ string_set
  | _ => string_set
  end.

(** The branch taken for a key in the translatable set. *)
Definition harvest (value : json) (string_set : gset pystr) : gset pystr :=
  match value with
  | JStr _ => add_if_text value string_set
  | JList items => fold_left (fun acc item => add_if_text item acc) items string_set
  | _ => string_set
  end.

Section Walk.
(** The set of translatable keys; the script fixes it to
    [TRANSLATABLE_KEYS]. *)
Variable translatable_keys : gset pystr.

(** [extract_strings_recursive(obj, string_set)]; the set is mutated in
    place by the script and returned here. *)
Fixpoint extract_strings_recursive (obj : json) (string_set : gset pystr)
  : gset pystr :=
  match obj with
  | JDict items =>
    (fix over_items (items : list (pystr * json)) (string_set : gset pystr) :=
       match items with
       | [] => string_set
       | (key, value) :: rest =>
         over_items rest
           (if bool_decide (key ∈ translatable_keys)
            then harvest value string_set
            else extract_strings_recursive value string_set)
       end) items string_set
  | JList items =>
    (fix over_list (items : list json) (string_set : gset pystr) :=
       match items with
       | [] => string_set
       | item :: rest => over_list rest (extract_strings_recursive item string_set)
       end) items string_set
  | _ => string_set
  end.

(** [data['data']] for a [dict] read from JSON. *)
Fixpoint dict_get (key : pystr) (items : list (pystr * json)) : option json :=
  match items with
  | [] => None
  | (k, v) :: rest => if bool_decide (k = key) then Some v else dict_get key rest
  end.

(** The unwrapping step of [process_json_file]. *)
Definition unwrap_data (data : json) : json :=
  match data with
  | JDict items =>
    match dict_get (str "data") items with
    | Some inner => inner
    | None => data
    end
  | _ => data
  end.

(** [process_json_file(json_path, string_set)]; [content] is what
    [json.load] produced, [None] when opening or parsing raised.  Returns the
    count and the set. *)
Definition process_json_file (content : option json) (string_set : gset pystr)
  : nat * gset pystr :=
  let initial_count := size string_set in
  match content with
  | Some data =>
    let string_set' := extract_strings_recursive (unwrap_data data) string_set in
    (size string_set' - initial_count, string_set')%nat
  | None => (0%nat, string_set)
  end.
End Walk.

(** *** [generate_pot_file] *)

(** One line of the header's quoted block: the text between double quotes. *)
Definition quoted_line (text : pystr) : pystr := [QUOTE] ++ text ++ [QUOTE; NL].

(** [POT_HEADER_TEMPLATE.format(creation_date=creation_date)].  The template
    is a raw string: its [\n] are a backslash and an [n]. *)
Definition POT_HEADER_TEMPLATE (creation_date : pystr) : pystr :=
  str "# Translation template for All-in-One Clipboard data content." ++ [NL] ++
  str "# Copyright (C) 2025 NiffirgkcaJ" ++ [NL] ++
  str "# This file is distributed under the same license as the All-in-One Clipboard package."
    ++ [NL] ++
  str "#" ++ [NL] ++
  str "#, fuzzy" ++ [NL] ++
  str "msgid " ++ [QUOTE; QUOTE; NL] ++
  str "msgstr " ++ [QUOTE; QUOTE; NL] ++
  quoted_line (str "Project-Id-Version: all-in-one-clipboard\n") ++
  quoted_line (str "Report-Msgid-Bugs-To: \n") ++
  quoted_line (str "POT-Creation-Date: " ++ creation_date ++ str "\n") ++
  quoted_line (str "PO-Revision-Date: YEAR-MO-DA HO:MI+ZONE\n") ++
  quoted_line (str "Last-Translator: FULL NAME <EMAIL@ADDRESS>\n") ++
  quoted_line (str "Language-Team: LANGUAGE <LL@li.org>\n") ++
  quoted_line (str "Language: \n") ++
  quoted_line (str "MIME-Version: 1.0\n") ++
  quoted_line (str "Content-Type: text/plain; charset=UTF-8\n") ++
  quoted_line (str "Content-Transfer-Encoding: 8bit\n") ++
  [NL].

(** The three writes of the loop body for one string. *)
Definition message_block (source_comment s : pystr) : pystr :=
  (str "#: " ++ source_comment ++ [NL]) ++
  (str "msgid " ++ [QUOTE] ++ escape_string s ++ [QUOTE; NL]) ++
  (str "msgstr " ++ [QUOTE; QUOTE; NL; NL]).

(** [generate_pot_file(output_path, strings, source_files)]: the text written
    to [output_path] and the returned count.  [source_files] are the file
    names, [creation_date] the formatted current time. *)
Definition generate_pot_file (creation_date : pystr)
    (strings : gset pystr) (source_files : list pystr) : pystr * nat :=
  let strings := strings ∖ {[ [] ]} in
  let sorted_strings := sorted (elements strings) in
  let source_comment := join (str ", ") source_files in
  (POT_HEADER_TEMPLATE creation_date
     ++ concat (List.map (message_block source_comment) sorted_strings),
   length sorted_strings).

(** *** The driver *)

(** What the script does to the outside, in order. *)
Inductive event : Type :=
| Print (text : pystr)
| Open (name : pystr)
| Mkdir (path : pystr)
| WriteFile (path content : pystr).

(** What a path names: a file, or a directory with its entries; an entry is
    a name and what [json.load] gives for it ([None] if opening or parsing
    raises). *)
Inductive node : Type :=
| File
| Directory (entries : list (pystr * option json)).

(** A computation that may call [sys.exit] and logs its events. *)
Inductive result (A : Type) : Type :=
| Done (a : A)
| Exited (code : Z).
Arguments Done {A} a.
Arguments Exited {A} code.

Definition script (A : Type) : Type := list event -> result A * list event.

#[export] Instance script_ret : MRet script := fun A a log => (Done a, log).
#[export] Instance script_bind : MBind script := fun A B f m log =>
  match m log with
  | (Done a, log') => f a log'
  | (Exited code, log') => (Exited code, log')
  end.

Definition emit (e : event) : script unit := fun log => (Done tt, log ++ [e]).
Definition print (text : pystr) : script unit := emit (Print text).
Definition sys_exit {A} (code : Z) : script A := fun log => (Exited code, log).

(** [str(n)] for a count. *)
Definition show_nat (n : nat) : pystr := str (NilEmpty.string_of_uint (Nat.to_uint n)).

(** [discover_json_files(input_dir)]: the entries matching [*.json] in sorted
    order, without the skipped ones. *)
Fixpoint skip_listed (globbed : list (pystr * option json))
  : script (list (pystr * option json)) :=
  match globbed with
  | [] => mret []
  | json_path :: rest =>
    if bool_decide (json_path.1 ∈ SKIP_FILES) then
      print (str "  Skipping: " ++ json_path.1 ++ str " (in skip list)");;
      skip_listed rest
    else
      json_files ← skip_listed rest;
      mret (json_path :: json_files)
  end.

Definition glob_json (entries : list (pystr * option json)) : list (pystr * option json) :=
  List.filter (fun e => endswith e.1 (str ".json")) entries.

Definition discover_json_files (entries : list (pystr * option json))
  : script (list (pystr * option json)) :=
  skip_listed (sorted_by fst (glob_json entries)).

(** Why a file could not be loaded, with the text of the exception:
    [json.load] raised [JSONDecodeError], or something else was raised. *)
Inductive load_failure : Type :=
| InvalidJSON (detail : pystr)
| OtherFailure (detail : pystr).

(** The line [process_json_file] prints in its two [except] branches. *)
Definition error_line (name : pystr) (failure : load_failure) : pystr :=
  match failure with
  | InvalidJSON e => str "  Error: Invalid JSON in '" ++ name ++ str "': " ++ e
  | OtherFailure e => str "  Error processing '" ++ name ++ str "': " ++ e
  end.

(** The loop over [json_files] in [main], with what [process_json_file]
    does to the outside: it opens the file and, when loading fails, prints the
    error line.  [failure_of] tells why a file without content fails. *)
Fixpoint process_all (failure_of : pystr -> load_failure)
    (json_files : list (pystr * option json)) (all_strings : gset pystr)
  : script (gset pystr) :=
  match json_files with
  | [] => mret all_strings
  | json_path :: rest =>
    emit (Open json_path.1);;
    match json_path.2 with
    | None => print (error_line json_path.1 (failure_of json_path.1))
    | Some _ => mret tt
    end;;
    let '(count, all_strings') :=
      process_json_file TRANSLATABLE_KEYS json_path.2 all_strings in
    print (str "  " ++ json_path.1 ++ str ": " ++ show_nat count ++ str " new strings");;
    process_all failure_of rest all_strings'
  end.

(** An exception that nothing catches ends the script with status 1 (the
    traceback goes to the error stream). *)
Definition uncaught {A} : script A := sys_exit 1.

(** Whether [s] can be written to a file opened with [encoding='utf-8']:
    the surrogate code points cannot be encoded. *)
Definition utf8_encodable (s : pystr) : bool :=
  forallb (fun c => (c <? 55296) || (57343 <? c)) s.

(** The successive [f.write] calls of [generate_pot_file]. *)
Definition pot_writes (creation_date : pystr)
    (strings : gset pystr) (source_files : list pystr) : list pystr :=
  let strings := strings ∖ {[ [] ]} in
  let sorted_strings := sorted (elements strings) in
  let source_comment := join (str ", ") source_files in
  POT_HEADER_TEMPLATE creation_date
    :: flat_map (fun s => [ str "#: " ++ source_comment ++ [NL];
                            str "msgid " ++ [QUOTE] ++ escape_string s ++ [QUOTE; NL];
                            str "msgstr " ++ [QUOTE; QUOTE; NL; NL] ])
                sorted_strings.

(** What reaches the file: the chunks before the first one that cannot be
    encoded, and whether every chunk was written. *)
Fixpoint write_chunks (chunks : list pystr) : pystr * bool :=
  match chunks with
  | [] => ([], true)
  | chunk :: rest =>
    if utf8_encodable chunk then
      let '(written, complete) := write_chunks rest in (chunk ++ written, complete)
    else ([], false)
  end.

Definition is_file (n : option node) : bool :=
  match n with Some File => true | _ => false end.

Definition is_directory (n : option node) : bool :=
  match n with Some (Directory _) => true | _ => false end.

Section Main.
(** The file system seen through [Path.exists], [Path.is_dir] and
    [Path.glob], the clock, and [str(path)] and [path.parent]. *)
Variable fs : pystr -> option node.
Variable creation_date : pystr.
Variable path_str : pystr -> pystr.
Variable path_parent : pystr -> pystr.
(** Why a file fails to load, and whether the system lets the script create
    a directory and open a file for writing (it never does so where the file
    system has a file in place of the directory or a directory in place of
    the file). *)
Variable failure_of : pystr -> load_failure.
Variable mkdir_ok : pystr -> bool.
Variable open_ok : pystr -> bool.

Definition main (argv : list pystr) : script unit :=
  match argv with
  | [_; output_file; input_dir] =>
    match fs input_dir with
    | None =>
      print (str "Error: Input directory '" ++ path_str input_dir ++ str "' does not exist.");;
      sys_exit 1
    | Some File =>
      print (str "Error: '" ++ path_str input_dir ++ str "' is not a directory.");;
      sys_exit 1
    | Some (Directory entries) =>
      print (str "Scanning directory: " ++ path_str input_dir);;
      print [];;
      json_files ← discover_json_files entries;
      match json_files with
      | [] =>
        print (str "No JSON files found to process.");;
        sys_exit 0
      | _ =>
        print (str "Found " ++ show_nat (length json_files) ++ str " JSON file(s) to process:");;
        fold_right (fun f k => print (str "  - " ++ f.1);; k) (mret tt) json_files;;
        print [];;
        all_strings ← process_all failure_of json_files ∅;
        print [];;
        (if is_file (fs (path_parent output_file))
            || negb (mkdir_ok (path_parent output_file))
         then uncaught
         else emit (Mkdir (path_parent output_file)));;
        (if is_directory (fs output_file) || negb (open_ok output_file)
         then uncaught
         else mret tt);;
        let '(written, complete) :=
          write_chunks (pot_writes creation_date all_strings (List.map fst json_files)) in
        emit (WriteFile output_file written);;
        (if complete then mret tt else uncaught);;
        let '(content, total) :=
          generate_pot_file creation_date all_strings (List.map fst json_files) in
        print (str "Generated '" ++ path_str output_file ++ str "' with "
               ++ show_nat total ++ str " unique translatable strings.")
      end
    end
  | _ =>
    print (str "Usage: python extract-data-strings.py <output_file.pot> <input_dir>");;
    print (str "Example: python extract-data-strings.py gnome-extensions/translation/data-content.pot gnome-extensions/extension/assets/data/json");;
    sys_exit 1
  end.

(** Running the script: the process exit status and the events. *)
Definition run (argv : list pystr) : Z * list event :=
  match main argv [] with
  | (Done _, log) => (0%Z, log)
  | (Exited code, log) => (code, log)
  end.
End Main.

End Extract.

(** ** The properties of the design document, in its own words *)

Module Design.
Import Countries Extract.

(** *** Manifest document *)

(** The generated-asset declarations of a manifest, and its opaque lines. *)
Definition declarations (lines : list pystr) : list pystr :=
  List.filter is_flag_reference lines.

Definition opaque_lines (lines : list pystr) : list pystr :=
  List.filter (fun line => negb (is_flag_reference line)) lines.

(** The invariant of the manifest document after synchronization with
    [svg_files]: the declarations are those of the file names, in sorted
    order, none twice, and the opaque lines are the ones from [before]. *)
Definition synchronized (svg_files before after : list pystr) : Prop :=
  (exists indent, declarations after = List.map (file_entry indent) (sorted svg_files))
  /\ NoDup (declarations after)
  /\ opaque_lines after = opaque_lines before.

(** A manifest with a single section: among its opaque lines exactly one,
    [closing], holds the closing token. *)
Definition single_section (lines pre : list pystr) (closing : pystr) (post : list pystr)
  : Prop :=
  opaque_lines lines = pre ++ closing :: post
  /\ has_closing_tag closing = true
  /\ Forall (fun l => has_closing_tag l = false) pre
  /\ Forall (fun l => has_closing_tag l = false) post.

(** What the synchronizer writes for one line of the manifest. *)
Definition lines_for (svg_files : list pystr) (line : pystr) : list pystr :=
  if is_flag_reference line then []
  else if has_closing_tag line then
    List.map (file_entry (closing_tag_indent line ++ indent_increment)) (sorted svg_files)
      ++ [line]
  else [line].

(** A manifest with one stale flag entry and one unrelated entry, and the
    same manifest synchronized with [fr.svg] and [de.svg]. *)
Definition sample_manifest : list pystr :=
  [ str "<?xml version=" ++ [QUOTE] ++ str "1.0" ++ [QUOTE] ++ str "?>" ++ [NL];
    str "<gresources>" ++ [NL];
    str "  <gresource prefix=" ++ [QUOTE] ++ default_prefix ++ [QUOTE] ++ str ">" ++ [NL];
    str "    <file>assets/data/icons/logo.png</file>" ++ [NL];
    str "    <file>assets/data/svg/us.svg</file>" ++ [NL];
    str "  </gresource>" ++ [NL];
    str "</gresources>" ++ [NL] ].

Definition sample_synchronized : list pystr :=
  [ str "<?xml version=" ++ [QUOTE] ++ str "1.0" ++ [QUOTE] ++ str "?>" ++ [NL];
    str "<gresources>" ++ [NL];
    str "  <gresource prefix=" ++ [QUOTE] ++ default_prefix ++ [QUOTE] ++ str ">" ++ [NL];
    str "    <file>assets/data/icons/logo.png</file>" ++ [NL];
    str "      <file>assets/data/svg/de.svg</file>" ++ [NL];
    str "      <file>assets/data/svg/fr.svg</file>" ++ [NL];
    str "  </gresource>" ++ [NL];
    str "</gresources>" ++ [NL] ].

(** A manifest without a closing line, and one with two sections. *)
Definition unclosed_manifest : list pystr :=
  [ str "<gresources>" ++ [NL];
    str "    <file>assets/data/svg/us.svg</file>" ++ [NL];
    str "</gresources>" ++ [NL] ].

Definition two_section_manifest : list pystr :=
  [ str "<gresources>" ++ [NL];
    str "  <gresource prefix=" ++ [QUOTE] ++ str "/a" ++ [QUOTE] ++ str ">" ++ [NL];
    str "  </gresource>" ++ [NL];
    str "  <gresource prefix=" ++ [QUOTE] ++ str "/b" ++ [QUOTE] ++ str ">" ++ [NL];
    str "  </gresource>" ++ [NL];
    str "</gresources>" ++ [NL] ].

(** *** Country pipeline *)

(** The file names materialized by a run of the pipeline. *)
Definition materialized (str_lower str_upper : pystr -> pystr) (str_isalpha : pystr -> bool)
    (re_search_prefix : pystr -> option pystr)
    (api : option (list country)) (net : list bool) (fs : files) : list pystr :=
  match api with
  | Some data =>
    downloaded_svgs
      (process_countries str_lower str_upper str_isalpha
         (get_gresource_prefix re_search_prefix (xml_file fs)) data net)
  | None => []
  end.

(** The statement that a run which materialized nothing leaves a manifest
    without generated-asset declarations. *)
Definition empty_run_clears_manifest (str_lower str_upper : pystr -> pystr)
    (str_isalpha : pystr -> bool) (re_search_prefix : pystr -> option pystr)
    (api : option (list country)) (net : list bool) (fs : files) : Prop :=
  materialized str_lower str_upper str_isalpha re_search_prefix api net fs = [] ->
  forall lines,
    xml_file (Countries.main str_lower str_upper str_isalpha re_search_prefix api net fs) = Some lines ->
    declarations lines = [].

(** A record without a flag URL, and files whose manifest still lists a
    flag. *)
Definition flagless_country : country :=
  {| name_common := Some (str "France"); cca2 := str "FR"; idd_root := str "+3";
     idd_suffixes := [str "3"]; flags_svg := [] |}.

Definition stale_files : files :=
  {| json_file := None; xml_file := Some sample_manifest |}.

(** Four upstream records: one without a root, one whose flag is not an
    SVG; and [str.lower] on ASCII letters. *)
Definition sample_records : list country :=
  [ {| name_common := Some (str "France"); cca2 := str "FR"; idd_root := str "+3";
       idd_suffixes := [str "3"]; flags_svg := str "https://flags.example/fr.svg" |};
    {| name_common := Some (str "Canada"); cca2 := str "CA"; idd_root := str "+1";
       idd_suffixes := []; flags_svg := str "https://flags.example/ca.png" |};
    {| name_common := None; cca2 := str "AQ"; idd_root := [];
       idd_suffixes := []; flags_svg := str "https://flags.example/aq.svg" |};
    {| name_common := Some (str "Bahamas"); cca2 := str "BS"; idd_root := str "+1";
       idd_suffixes := [str "242"]; flags_svg := str "https://flags.example/bs.svg" |} ].

Definition ascii_lower (s : pystr) : pystr :=
  List.map (fun c => if (65 <=? c) && (c <=? 90) then c + 32 else c) s.

(** Whether a record has a dialing root, and what identifies a record in
    the output list. *)
Definition has_root (c : country) : bool := negb (bool_decide (idd_root c = [])).

Definition item_identity (it : item) : pystr * pystr * pystr :=
  (name it, code it, dial_code it).

(** *** Dial code *)

(** The rule of the record normalizer for a record that has a root. *)
Definition dial_code_rule (root : pystr) (suffixes : list pystr) (cca2 : pystr) : pystr :=
  if bool_decide (root = str "+1" ∧ (cca2 = str "US" ∨ cca2 = str "CA")) then str "+1"
  else if bool_decide (root = str "+7" ∧ (cca2 = str "RU" ∨ cca2 = str "KZ")) then str "+7"
  else match suffixes with
       | first :: _ => root ++ first
       | [] => root
       end.

(** The identity a record with a root gets in the output list. *)
Definition country_identity (c : country) : pystr * pystr * pystr :=
  (default (str "Unknown") (name_common c), cca2 c,
   dial_code_rule (idd_root c) (idd_suffixes c) (cca2 c)).

(** *** String extraction *)

(** [harvested keys v s]: [s] is a trimmed, non-empty string reachable in
    [v] as the value of a translatable key or as an element of a sequence
    that is the value of such a key; translatable keys are not descended
    into, everything else is. *)
Inductive harvested (keys : gset pystr) : json -> pystr -> Prop :=
| harvested_direct items key text :
    (key, JStr text) ∈ items -> key ∈ keys -> strip text <> [] ->
    harvested keys (JDict items) (strip text)
| harvested_element items key elements text :
    (key, JList elements) ∈ items -> key ∈ keys ->
    JStr text ∈ elements -> strip text <> [] ->
    harvested keys (JDict items) (strip text)
| harvested_under_key items key value s :
    (key, value) ∈ items -> key ∉ keys ->
    harvested keys value s ->
    harvested keys (JDict items) s
| harvested_in_sequence elements value s :
    value ∈ elements ->
    harvested keys value s ->
    harvested keys (JList elements) s.

(** The trimmed text of a string value, when it is not empty. *)
Definition text_of (v : json) (s : pystr) : Prop :=
  exists text, v = JStr text /\ strip text <> [] /\ s = strip text.

(** What the value of a translatable key yields. *)
Definition value_yields (value : json) (s : pystr) : Prop :=
  text_of value s
  \/ exists elements item, value = JList elements /\ item ∈ elements /\ text_of item s.

(** What one entry of a mapping yields. *)
Definition entry_yields (keys : gset pystr) (entry : pystr * json) (s : pystr) : Prop :=
  (fst entry ∈ keys /\ value_yields (snd entry) s)
  \/ ((fst entry ∉ keys) /\ harvested keys (snd entry) s).

(** The sample values of the design document. *)
Definition coffee : json :=
  JDict [ (str "name", JStr (str "Coffee"));
          (str "keywords", JList [JStr (str "drink"); JStr (str "hot")]);
          (str "id", JInt 42) ].

Definition bare_list : json := JList [JDict [(str "name", JStr (str "X"))]].
Definition wrapped_list : json := JDict [(str "data", bare_list)].

(** The statement that a root mapping with a key [data] gives what the
    value of that key gives when it is the root; whether a value is itself a
    mapping with a key [data]; and a value that is one, whose own [data] key
    hides its [name] when it is the root. *)
Definition wrapping_is_transparent (keys : gset pystr) (string_set : gset pystr)
    (inner : json) : Prop :=
  forall items,
    dict_get (str "data") items = Some inner ->
    process_json_file keys (Some (JDict items)) string_set
    = process_json_file keys (Some inner) string_set.

Definition has_data_key (v : json) : bool :=
  match v with
  | JDict items =>
    match dict_get (str "data") items with
    | Some _ => true
    | None => false
    end
  | _ => false
  end.

Definition nested_data : json :=
  JDict [ (str "data", JList []); (str "name", JStr (str "Top")) ].

(** A directory with two files to read, one skipped and one that is no
    JSON file. *)
Definition sample_directory : node :=
  Directory [ (str "b.json", Some coffee);
              (str "countries.json", None);
              (str "a.json", Some wrapped_list);
              (str "notes.txt", None) ].

(** A file system that holds the sample directory at [json] and nothing
    else, a failure without text, and a system that permits everything. *)
Definition sample_fs (path : pystr) : option node :=
  if bool_decide (path = str "json") then Some sample_directory else None.

Definition no_detail (name : pystr) : load_failure := OtherFailure [].

Definition permitted (path : pystr) : bool := true.

(** *** Template *)

(** A message identifier: backslash and double quote are preceded by a
    backslash. *)
Definition escaped (s : pystr) : pystr :=
  flat_map (fun c => if (c =? BACKSLASH) || (c =? QUOTE) then [BACKSLASH; c] else [c]) s.

(** *** Driver events *)

Definition is_print (e : event) : bool :=
  match e with Print _ => true | _ => false end.

(** A directory with nothing to process: every entry matching [*.json] is
    on the skip list. *)
Definition nothing_eligible (entries : list (pystr * option json)) : Prop :=
  Forall (fun e => endswith e.1 (str ".json") = true -> e.1 ∈ SKIP_FILES) entries.

End Design.

(** ** Further behaviour of the two scripts *)

Module Behaviour.
Import Countries Extract Design.

(** *** The pattern of [get_gresource_prefix] *)

Definition gresource_tag : pystr := str "<gresource".
Definition prefix_attribute : pystr := str "prefix=" ++ [QUOTE].

(** The longest run of characters satisfying [p] at the start of [s], and
    what follows it. *)
Fixpoint span (p : N -> bool) (s : pystr) : pystr * pystr :=
  match s with
  | c :: rest =>
    if p c then let '(taken, remaining) := span p rest in (c :: taken, remaining)
    else ([], s)
  | [] => ([], [])
  end.

Definition not_quote (c : N) : bool := negb (c =? QUOTE).

(** Group 1 of the pattern of [get_gresource_prefix] matched at the start
    of [s]: the tag, one or more whitespace characters, the attribute name
    with its opening double quote, one or more characters other than a
    double quote (the group), and a double quote.  The whitespace run is
    followed by the letter [p] and the value by a double quote, so the greedy
    runs are the only way to match. *)
Definition match_prefix (s : pystr) : option pystr :=
  if startswith s gresource_tag then
    match span isspace (drop (length gresource_tag) s) with
    | ([], _) => None
    | (_ :: _, after_space) =>
      if startswith after_space prefix_attribute then
        match span not_quote (drop (length prefix_attribute) after_space) with
        | ((_ :: _) as value, _ :: _) => Some value
        | _ => None
        end
      else None
    end
  else None.

(** [re.search(pattern, content)] followed by [group(1)]: the match at the
    first position that has one. *)
Fixpoint search_prefix (content : pystr) : option pystr :=
  match match_prefix content with
  | Some value => Some value
  | None =>
    match content with
    | [] => None
    | _ :: rest => search_prefix rest
    end
  end.

(** [content] holds, after [pre], the opening tag with a prefix attribute of
    value [value]. *)
Definition prefix_at (content pre value : pystr) : Prop :=
  exists space post,
    content = pre ++ gresource_tag ++ space ++ prefix_attribute ++ value ++ [QUOTE] ++ post
    /\ space <> [] /\ Forall (fun c => isspace c = true) space
    /\ value <> [] /\ Forall (fun c => c <> QUOTE) value.

(** The first such place in [content]. *)
Definition first_prefix (content value : pystr) : Prop :=
  exists pre,
    prefix_at content pre value
    /\ forall pre' value', prefix_at content pre' value' -> (length pre <= length pre')%nat.

(** *** Flags *)

(** The resource URI stored for a downloaded flag. *)
Definition flag_uri (resource_prefix filename : pystr) : pystr :=
  str "resource://" ++ resource_prefix ++ str "/assets/data/svg/" ++ filename.

Definition has_flag (it : item) : bool := negb (bool_decide (flag_path it = [])).

(** What the loop over the records keeps true: the items that have a flag
    path are, in order, the downloaded files, and every downloaded file comes
    from a record of [data] with a root and an SVG address. *)
Definition flags_in_step (str_lower : pystr -> pystr) (resource_prefix : pystr)
    (data : list country) (st : loop_state) : Prop :=
  List.map flag_path (List.filter has_flag (processed_list st))
  = List.map (flag_uri resource_prefix) (downloaded_svgs st)
  /\ Forall (fun f => exists c, c ∈ data /\ f = str_lower (cca2 c) ++ str ".svg"
                                /\ idd_root c <> []
                                /\ endswith (flags_svg c) (str ".svg") = true)
            (downloaded_svgs st).

(** [str.upper] and [str.isalpha] on ASCII text. *)
Definition is_ascii_letter (c : N) : bool :=
  ((65 <=? c) && (c <=? 90)) || ((97 <=? c) && (c <=? 122)).

Definition ascii_upper (s : pystr) : pystr :=
  List.map (fun c => if (97 <=? c) && (c <=? 122) then c - 32 else c) s.

Definition ascii_isalpha (s : pystr) : bool :=
  negb (bool_decide (s = [])) && forallb is_ascii_letter s.

(** The regional indicator symbols: U+1F1E6 to U+1F1FF. *)
Definition is_regional_indicator (c : N) : Prop := 127462 <= c <= 127487.

(** *** Template strings *)

(** The reading of an escaped message identifier: a backslash stands for the
    character after it. *)
Fixpoint unescape (s : pystr) : pystr :=
  match s with
  | [] => []
  | c :: rest =>
    if c =? BACKSLASH then
      match rest with
      | c' :: rest' => c' :: unescape rest'
      | [] => [c]
      end
    else c :: unescape rest
  end.

(** The number of characters [escape_string] puts a backslash before. *)
Definition special_count (s : pystr) : nat :=
  length (List.filter (fun c => (c =? BACKSLASH) || (c =? QUOTE)) s).

(** A string that neither starts nor ends with whitespace, and is not
    empty. *)
Definition trimmed (s : pystr) : Prop :=
  match head s, last s with
  | Some first, Some final => isspace first = false /\ isspace final = false
  | _, _ => False
  end.

(** *** The template driver *)

Definition skipped (e : pystr * option json) : bool := bool_decide (e.1 ∈ SKIP_FILES).

(** The strings gathered from [files], starting from [string_set]. *)
Definition collect (files : list (pystr * option json)) (string_set : gset pystr)
  : gset pystr :=
  fold_left (fun acc f => (process_json_file TRANSLATABLE_KEYS f.2 acc).2) files string_set.

(** The counts reported file by file. *)
Fixpoint new_counts (files : list (pystr * option json)) (string_set : gset pystr)
  : list nat :=
  match files with
  | [] => []
  | f :: rest =>
    let r := process_json_file TRANSLATABLE_KEYS f.2 string_set in
    r.1 :: new_counts rest r.2
  end.

(** The line printed for one file. *)
Definition count_line (name : pystr) (count : nat) : pystr :=
  str "  " ++ name ++ str ": " ++ show_nat count ++ str " new strings".

(** The events of the loop over the files, given the counts: for each file
    the opening, the error line if it cannot be loaded, and its count. *)
Fixpoint file_events (failure_of : pystr -> load_failure)
    (files : list (pystr * option json)) (counts : list nat) : list event :=
  match files, counts with
  | f :: files', count :: counts' =>
    Open f.1
      :: match f.2 with
         | None => [Print (error_line f.1 (failure_of f.1))]
         | Some _ => []
         end
      ++ Print (count_line f.1 count) :: file_events failure_of files' counts'
  | _, _ => []
  end.

(** The events that are not output. *)
Definition effects (log : list event) : list event :=
  List.filter (fun e => negb (is_print e)) log.

(** The files [discover_json_files] returns, and what it prints. *)
Definition eligible (entries : list (pystr * option json)) : list (pystr * option json) :=
  List.filter (fun e => negb (skipped e)) (sorted_by fst (glob_json entries)).

Definition skip_event (e : pystr * option json) : event :=
  Print (str "  Skipping: " ++ e.1 ++ str " (in skip list)").

Definition skip_events (entries : list (pystr * option json)) : list event :=
  List.map skip_event (List.filter skipped (sorted_by fst (glob_json entries))).

(** The events of a run with files to process, up to the point where the
    output is produced. *)
Definition processing_log (path_str : pystr -> pystr) (failure_of : pystr -> load_failure)
    (input_dir : pystr) (entries : list (pystr * option json)) : list event :=
  let files := eligible entries in
  [Print (str "Scanning directory: " ++ path_str input_dir); Print []]
    ++ skip_events entries
    ++ [Print (str "Found " ++ show_nat (length files) ++ str " JSON file(s) to process:")]
    ++ List.map (fun name => Print (str "  - " ++ name)) (List.map fst files)
    ++ [Print []]
    ++ file_events failure_of files (new_counts files ∅)
    ++ [Print []].

(** Whether the directory of the output can be created and the output
    opened for writing. *)
Definition can_mkdir (fs : pystr -> option node) (mkdir_ok : pystr -> bool)
    (parent : pystr) : bool :=
  negb (is_file (fs parent)) && mkdir_ok parent.

Definition can_open (fs : pystr -> option node) (open_ok : pystr -> bool)
    (output_file : pystr) : bool :=
  negb (is_directory (fs output_file)) && open_ok output_file.

(** The line that ends a successful run. *)
Definition generated_line (path_str : pystr -> pystr) (output_file : pystr) (total : nat)
  : pystr :=
  str "Generated '" ++ path_str output_file ++ str "' with " ++ show_nat total
    ++ str " unique translatable strings.".

(** The status of a run with files to process and its events after
    [processing_log]. *)
Definition output_outcome (fs : pystr -> option node) (creation_date : pystr)
    (path_str path_parent : pystr -> pystr) (mkdir_ok open_ok : pystr -> bool)
    (output_file : pystr) (files : list (pystr * option json)) : Z * list event :=
  let names := List.map fst files in
  let strings := collect files ∅ in
  if negb (can_mkdir fs mkdir_ok (path_parent output_file)) then (1%Z, [])
  else if negb (can_open fs open_ok output_file)
  then (1%Z, [Mkdir (path_parent output_file)])
  else
    let written := write_chunks (pot_writes creation_date strings names) in
    if written.2
    then (0%Z, [Mkdir (path_parent output_file); WriteFile output_file written.1;
                Print (generated_line path_str output_file
                         (generate_pot_file creation_date strings names).2)])
    else (1%Z, [Mkdir (path_parent output_file); WriteFile output_file written.1]).

(** Three upstream records that all have a name, out of order. *)
Definition named_records : list country :=
  [ {| name_common := Some (str "France"); cca2 := str "FR"; idd_root := str "+3";
       idd_suffixes := [str "3"]; flags_svg := str "https://flags.example/fr.svg" |};
    {| name_common := Some (str "Canada"); cca2 := str "CA"; idd_root := str "+1";
       idd_suffixes := []; flags_svg := str "https://flags.example/ca.png" |};
    {| name_common := Some (str "Bahamas"); cca2 := str "BS"; idd_root := str "+1";
       idd_suffixes := [str "242"]; flags_svg := str "https://flags.example/bs.svg" |} ].

(** A directory with a file that cannot be loaded, one whose file holds a
    string with a lone surrogate, which UTF-8 cannot encode, and the file
    systems that hold one of them at [json] and nothing else. *)
Definition broken_directory : node :=
  Directory [ (str "b.json", Some coffee); (str "a.json", None) ].

Definition surrogate_directory : node :=
  Directory [ (str "a.json", Some (JDict [(str "name", JStr [55296%N])])) ].

Definition holding (directory : node) (path : pystr) : option node :=
  if bool_decide (path = str "json") then Some directory else None.

End Behaviour.

(** ** Facts about strings and sorting *)

Module PyStrFacts.

Lemma startswith_app (p rest : pystr) : startswith (p ++ rest) p = true.
Proof.
  induction p as [|c p IH]; simpl; [done|].
  by rewrite N.eqb_refl, IH.
Qed.

Lemma startswith_spec (s p : pystr) :
  startswith s p = true <-> exists rest, s = p ++ rest.
Proof.
  split.
  - revert s. induction p as [|c p IH]; intros s H; simpl in *.
    + by exists s.
    + destruct s as [|d s]; [done|].
      apply andb_true_iff in H as [Hc Hs]. apply N.eqb_eq in Hc as ->.
      destruct (IH _ Hs) as [rest ->]. by exists rest.
  - intros [rest ->]. apply startswith_app.
Qed.

Lemma contains_cons (needle : pystr) (c : N) (s : pystr) :
  contains needle s = true -> contains needle (c :: s) = true.
Proof. intros H. simpl. rewrite H. apply orb_true_r. Qed.

Lemma contains_app_l (needle pre s : pystr) :
  contains needle s = true -> contains needle (pre ++ s) = true.
Proof. induction pre; simpl; intros H; [done|]. rewrite IHpre by done. apply orb_true_r. Qed.

Lemma contains_infix (needle pre post : pystr) :
  contains needle (pre ++ needle ++ post) = true.
Proof.
  apply contains_app_l. destruct needle; simpl.
  - by destruct post.
  - by rewrite N.eqb_refl, startswith_app.
Qed.

Lemma contains_spec (needle s : pystr) :
  contains needle s = true <-> exists pre post, s = pre ++ needle ++ post.
Proof.
  split.
  - induction s as [|c s IH]; simpl; intros H.
    + rewrite orb_false_r in H. apply startswith_spec in H as [rest H].
      by exists [], rest.
    + apply orb_true_iff in H as [H|H].
      * apply startswith_spec in H as [rest H]. by exists [], rest.
      * destruct (IH H) as (pre & post & ->). by exists (c :: pre), post.
  - intros (pre & post & ->). apply contains_infix.
Qed.

(** [lstrip] removes exactly the leading whitespace. *)
Lemma lstrip_split (s : pystr) :
  exists lead, s = lead ++ lstrip s /\ Forall (fun c => isspace c = true) lead
               /\ take (length s - length (lstrip s)) s = lead.
Proof.
  induction s as [|c s (lead & Hs & Hlead & Htake)]; simpl.
  - by exists [].
  - destruct (isspace c) eqn:Hc.
    + exists (c :: lead). split_and!.
      * by rewrite <- app_comm_cons, <- Hs.
      * by constructor.
      * assert (length (lstrip s) <= length s)%nat.
        { rewrite Hs at 2. rewrite length_app. lia. }
        replace (S (length s) - length (lstrip s))%nat
          with (S (length s - length (lstrip s))) by lia.
        simpl. by rewrite Htake.
    + exists []. split_and!; [done|constructor|].
      simpl. by rewrite Nat.sub_diag.
Qed.

Lemma lstrip_head (s : pystr) :
  match lstrip s with c :: _ => isspace c = false | [] => True end.
Proof.
  induction s as [|c s IH]; simpl; [done|].
  destruct (isspace c) eqn:Hc; [done|]. exact Hc.
Qed.

(** The order on strings. *)
Lemma str_le_refl (a : pystr) : str_le a a = true.
Proof.
  induction a as [|x a IH]; simpl; [done|].
  by rewrite N.eqb_refl, IH, orb_true_r.
Qed.

Lemma str_le_total (a b : pystr) : str_le a b = true \/ str_le b a = true.
Proof.
  revert b. induction a as [|x a IH]; intros [|y b]; simpl; auto.
  destruct (N.ltb_spec x y), (N.ltb_spec y x), (N.eqb_spec x y), (N.eqb_spec y x);
    simpl; auto; lia.
Qed.

Lemma str_le_trans (a b c : pystr) :
  str_le a b = true -> str_le b c = true -> str_le a c = true.
Proof.
  revert b c. induction a as [|x a IH]; intros [|y b] [|z c]; simpl; auto; try done.
  destruct (N.ltb_spec x y), (N.ltb_spec y z), (N.ltb_spec x z),
    (N.eqb_spec x y), (N.eqb_spec y z), (N.eqb_spec x z);
    simpl; auto; try lia; try done.
  apply IH.
Qed.

Lemma str_le_antisym (a b : pystr) :
  str_le a b = true -> str_le b a = true -> a = b.
Proof.
  revert b. induction a as [|x a IH]; intros [|y b]; simpl; auto; try done.
  destruct (N.ltb_spec x y), (N.ltb_spec y x), (N.eqb_spec x y), (N.eqb_spec y x);
    simpl; try lia; try done.
  intros ??. subst. f_equal. by apply IH.
Qed.

Section SortingFacts.
Context {A : Type} (key : A -> pystr).

Lemma insert_sorted_perm (x : A) (l : list A) : insert_sorted key x l ≡ₚ x :: l.
Proof.
  induction l as [|y l IH]; simpl; [done|].
  destruct (str_le (key x) (key y)); [done|].
  rewrite IH. apply Permutation_swap.
Qed.

Lemma sorted_by_perm (l : list A) : sorted_by key l ≡ₚ l.
Proof.
  induction l as [|x l IH]; simpl; [done|].
  by rewrite insert_sorted_perm, IH.
Qed.

Lemma insert_sorted_sorted (x : A) (l : list A) :
  Sorted (key_le key) l -> Sorted (key_le key) (insert_sorted key x l).
Proof.
  induction 1 as [|y l Hl IH Hhd]; simpl.
  - by repeat constructor.
  - destruct (str_le (key x) (key y)) eqn:Hxy.
    + constructor; [by constructor|]. by constructor.
    + constructor; [done|].
      assert (key_le key y x) as Hyx.
      { destruct (str_le_total (key x) (key y)); [congruence|done]. }
      destruct Hhd as [|z l' Hz]; simpl.
      * by constructor.
      * destruct (str_le (key x) (key z)); by constructor.
Qed.

Lemma sorted_by_sorted (l : list A) : Sorted (key_le key) (sorted_by key l).
Proof.
  induction l as [|x l IH]; simpl; [constructor|].
  by apply insert_sorted_sorted.
Qed.

Lemma sorted_by_Forall (P : A -> Prop) (l : list A) :
  Forall P l -> Forall P (sorted_by key l).
Proof. intros H. by rewrite sorted_by_perm. Qed.
End SortingFacts.

Lemma sorted_perm (l : list pystr) : sorted l ≡ₚ l.
Proof. apply sorted_by_perm. Qed.

Lemma sorted_sorted (l : list pystr) : Sorted (fun a b => str_le a b = true) (sorted l).
Proof. apply (sorted_by_sorted (fun s => s)). Qed.

#[local] Instance str_le_transitive : Transitive (fun a b : pystr => str_le a b = true).
Proof. intros a b c. apply str_le_trans. Qed.

#[local] Instance str_le_antisymm : AntiSymm (=) (fun a b : pystr => str_le a b = true).
Proof. intros a b. apply str_le_antisym. Qed.

(** The sorted list depends on the elements only, not on their order. *)
Lemma sorted_unique (l1 l2 : list pystr) : l1 ≡ₚ l2 -> sorted l1 = sorted l2.
Proof.
  intros H. apply (Sorted_unique (fun a b : pystr => str_le a b = true)).
  - apply sorted_sorted.
  - apply sorted_sorted.
  - by rewrite !sorted_perm.
Qed.

Lemma sorted_NoDup (l : list pystr) : NoDup l -> NoDup (sorted l).
Proof. intros H. by rewrite sorted_perm. Qed.

End PyStrFacts.

(** ** The manifest synchronizer *)

Module Manifest.
Import Countries Design PyStrFacts.

Lemma append_entries (g : pystr -> pystr) (names acc : list pystr) :
  fold_left (fun acc filename => acc ++ [g filename]) names acc = acc ++ List.map g names.
Proof.
  revert acc. induction names as [|f names IH]; intros acc; simpl.
  - by rewrite app_nil_r.
  - by rewrite IH, <- app_assoc.
Qed.

Lemma rewrite_step_lines_for (svg_files new_lines : list pystr) (line : pystr) :
  rewrite_step svg_files new_lines line = new_lines ++ lines_for svg_files line.
Proof.
  unfold rewrite_step, lines_for.
  destruct (is_flag_reference line); [by rewrite app_nil_r|].
  destruct (has_closing_tag line); [|done].
  by rewrite append_entries, <- app_assoc.
Qed.

Lemma rewrite_from (svg_files lines acc : list pystr) :
  fold_left (rewrite_step svg_files) lines acc = acc ++ flat_map (lines_for svg_files) lines.
Proof.
  revert acc. induction lines as [|line lines IH]; intros acc; simpl.
  - by rewrite app_nil_r.
  - by rewrite IH, rewrite_step_lines_for, <- app_assoc.
Qed.

(** The loop writes, line by line, what [lines_for] says. *)
Lemma rewrite_lines_flat_map (svg_files lines : list pystr) :
  rewrite_lines svg_files lines = flat_map (lines_for svg_files) lines.
Proof. unfold rewrite_lines. by rewrite rewrite_from. Qed.

(** A written declaration is recognized as one on the next reading. *)
Lemma file_entry_is_flag_reference (file_indent filename : pystr) :
  is_flag_reference (file_entry file_indent filename) = true.
Proof.
  unfold is_flag_reference, file_entry. apply andb_true_iff. split.
  - rewrite (app_assoc file_indent file_open_token). apply contains_infix.
  - apply contains_infix.
Qed.

Lemma file_entry_inj (file_indent : pystr) : Inj (=) (=) (file_entry file_indent).
Proof.
  intros f1 f2 H. unfold file_entry in H.
  do 3 apply app_inv_head in H. by apply app_inv_tail in H.
Qed.

Lemma declarations_entries (file_indent : pystr) (names : list pystr) :
  declarations (List.map (file_entry file_indent) names)
  = List.map (file_entry file_indent) names.
Proof.
  unfold declarations. induction names as [|f names IH]; simpl; [done|].
  by rewrite file_entry_is_flag_reference, IH.
Qed.

Lemma opaque_entries (file_indent : pystr) (names : list pystr) :
  opaque_lines (List.map (file_entry file_indent) names) = [].
Proof.
  unfold opaque_lines. induction names as [|f names IH]; simpl; [done|].
  by rewrite file_entry_is_flag_reference.
Qed.

Lemma declarations_app (l1 l2 : list pystr) :
  declarations (l1 ++ l2) = declarations l1 ++ declarations l2.
Proof. apply List.filter_app. Qed.

Lemma opaque_lines_app (l1 l2 : list pystr) :
  opaque_lines (l1 ++ l2) = opaque_lines l1 ++ opaque_lines l2.
Proof. apply List.filter_app. Qed.

Lemma opaque_lines_for (svg_files : list pystr) (line : pystr) :
  opaque_lines (lines_for svg_files line) = opaque_lines [line].
Proof.
  unfold lines_for. destruct (is_flag_reference line) eqn:Hflag.
  - unfold opaque_lines. simpl. by rewrite Hflag.
  - destruct (has_closing_tag line); [|done].
    by rewrite opaque_lines_app, opaque_entries.
Qed.

(** Opaque lines pass through the loop, whatever the manifest. *)
Lemma opaque_lines_rewrite (svg_files lines : list pystr) :
  opaque_lines (rewrite_lines svg_files lines) = opaque_lines lines.
Proof.
  rewrite rewrite_lines_flat_map.
  induction lines as [|line lines IH]; simpl; [done|].
  rewrite opaque_lines_app, opaque_lines_for, IH.
  unfold opaque_lines. simpl. by destruct (is_flag_reference line).
Qed.

(** Only the opaque lines of the input matter to the loop. *)
Lemma rewrite_lines_opaque (svg_files lines : list pystr) :
  rewrite_lines svg_files lines = rewrite_lines svg_files (opaque_lines lines).
Proof.
  rewrite !rewrite_lines_flat_map. unfold opaque_lines.
  induction lines as [|line lines IH]; simpl; [done|].
  rewrite IH. unfold lines_for at 1.
  destruct (is_flag_reference line) eqn:Hflag; simpl; [done|].
  unfold lines_for at 2. by rewrite Hflag.
Qed.

Lemma opaque_lines_not_flagged (lines : list pystr) :
  Forall (fun l => is_flag_reference l = false) (opaque_lines lines).
Proof.
  apply Forall_forall. intros l Hl. apply list_elem_of_In, filter_In in Hl as [_ Hl].
  by apply negb_true_iff.
Qed.

Lemma opaque_lines_id (lines : list pystr) :
  Forall (fun l => is_flag_reference l = false) lines -> opaque_lines lines = lines.
Proof.
  unfold opaque_lines. induction 1 as [|l lines Hl _ IH]; simpl; [done|].
  by rewrite Hl, IH.
Qed.

Lemma declarations_not_flagged (lines : list pystr) :
  Forall (fun l => is_flag_reference l = false) lines -> declarations lines = [].
Proof.
  unfold declarations. induction 1 as [|l lines Hl _ IH]; simpl; [done|].
  by rewrite Hl, IH.
Qed.

(** Lines that are neither declarations nor closing lines are copied. *)
Lemma flat_map_plain (svg_files lines : list pystr) :
  Forall (fun l => is_flag_reference l = false) lines ->
  Forall (fun l => has_closing_tag l = false) lines ->
  flat_map (lines_for svg_files) lines = lines.
Proof.
  induction 1 as [|l lines Hl _ IH]; intros Hc; simpl; [done|].
  apply Forall_cons in Hc as [Hc1 Hc2].
  rewrite IH by done. unfold lines_for. by rewrite Hl, Hc1.
Qed.

(** The second pass over what one line produced reproduces it. *)
Lemma lines_for_again (svg_files : list pystr) (line : pystr) :
  flat_map (lines_for svg_files) (lines_for svg_files line) = lines_for svg_files line.
Proof.
  unfold lines_for at 2.
  destruct (is_flag_reference line) eqn:Hflag.
  { unfold lines_for. by rewrite Hflag. }
  destruct (has_closing_tag line) eqn:Hclose.
  - rewrite flat_map_app. simpl. rewrite app_nil_r.
    replace (flat_map _ (List.map _ _)) with (@nil pystr).
    + unfold lines_for. by rewrite Hflag, Hclose.
    + induction (sorted svg_files) as [|f names IH]; simpl; [done|].
      rewrite <- IH. unfold lines_for at 1.
      by rewrite file_entry_is_flag_reference.
  - simpl. rewrite app_nil_r. unfold lines_for. by rewrite Hflag, Hclose.
Qed.

Lemma rewrite_lines_idempotent (svg_files lines : list pystr) :
  rewrite_lines svg_files (rewrite_lines svg_files lines) = rewrite_lines svg_files lines.
Proof.
  rewrite !rewrite_lines_flat_map.
  induction lines as [|line lines IH]; simpl; [done|].
  by rewrite flat_map_app, IH, lines_for_again.
Qed.

Lemma rewrite_lines_unclosed (svg_files lines : list pystr) :
  Forall (fun l => has_closing_tag l = false) lines ->
  rewrite_lines svg_files lines = opaque_lines lines.
Proof.
  intros Hc. rewrite rewrite_lines_opaque, rewrite_lines_flat_map.
  apply flat_map_plain; [apply opaque_lines_not_flagged|].
  apply Forall_forall. intros l Hl. apply list_elem_of_In, filter_In in Hl as [Hl _].
  rewrite Forall_forall in Hc. by apply Hc, list_elem_of_In.
Qed.

Lemma rewrite_lines_single_section (svg_files lines pre : list pystr) (closing : pystr)
    (post : list pystr) :
  single_section lines pre closing post ->
  rewrite_lines svg_files lines
  = pre ++ List.map (file_entry (closing_tag_indent closing ++ indent_increment))
                    (sorted svg_files)
        ++ closing :: post.
Proof.
  intros (Hsplit & Hclosing & Hpre & Hpost).
  pose proof (opaque_lines_not_flagged lines) as Hflag.
  rewrite Hsplit in Hflag. apply Forall_app in Hflag as [Hf1 Hf2].
  apply Forall_cons in Hf2 as [Hfc Hf2].
  rewrite rewrite_lines_opaque, Hsplit, rewrite_lines_flat_map.
  rewrite flat_map_app. simpl.
  rewrite !flat_map_plain by done.
  unfold lines_for. rewrite Hfc, Hclosing. by rewrite <- app_assoc.
Qed.

End Manifest.

Module ManifestProperties.
Import Countries Design PyStrFacts Manifest.

(** C1, as amended.  Whatever the manifest and the file names, the opaque
    lines of the manifest are kept, in order and unchanged.  When the opaque
    lines hold exactly one closing line and the file names are a set (a list
    without repetition), the output is the opaque lines with one declaration
    per file name inserted immediately before the closing line, in sorted
    order, each indented by the closing line's leading whitespace followed by
    four spaces: the manifest invariant holds.  On the sample manifest (stale
    [us.svg], unrelated [logo.png]) synchronized with [fr.svg] and [de.svg],
    the [logo.png] line stays, the [us.svg] line goes, and the lines for
    [de.svg] and [fr.svg] come in that order before the closing line. *)
Theorem sync_single_section :
  (forall svg_files lines : list pystr,
      opaque_lines (rewrite_lines svg_files lines) = opaque_lines lines)
  /\ (forall (svg_files lines pre : list pystr) (closing : pystr) (post : list pystr),
         NoDup svg_files ->
         single_section lines pre closing post ->
         let lead := closing_tag_indent closing in
         rewrite_lines svg_files lines
         = pre ++ List.map (file_entry (lead ++ indent_increment)) (sorted svg_files)
               ++ closing :: post
         /\ synchronized svg_files lines (rewrite_lines svg_files lines)
         /\ Sorted (fun a b => str_le a b = true) (sorted svg_files)
         /\ sorted svg_files ≡ₚ svg_files
         /\ closing = lead ++ lstrip closing
         /\ Forall (fun c => isspace c = true) lead
         /\ match lstrip closing with c :: _ => isspace c = false | [] => True end)
  /\ rewrite_lines [str "fr.svg"; str "de.svg"] sample_manifest = sample_synchronized.
Proof.
  split_and!.
  - apply opaque_lines_rewrite.
  - intros svg_files lines pre closing post Hset Hsection lead.
    pose proof (rewrite_lines_single_section svg_files _ _ _ _ Hsection) as Hout.
    fold lead in Hout.
    destruct Hsection as (Hsplit & Hclosing & Hpre & Hpost).
    pose proof (opaque_lines_not_flagged lines) as Hflag.
    rewrite Hsplit in Hflag. apply Forall_app in Hflag as [Hf1 Hf2].
    assert (declarations (rewrite_lines svg_files lines)
            = List.map (file_entry (lead ++ indent_increment)) (sorted svg_files)) as Hdecl.
    { rewrite Hout, !declarations_app, declarations_entries.
      rewrite (declarations_not_flagged pre), (declarations_not_flagged (closing :: post))
        by done.
      by rewrite app_nil_r. }
    split_and!.
    + exact Hout.
    + split_and!.
      * by exists (lead ++ indent_increment).
      * rewrite Hdecl.
        apply (@NoDup_fmap_2 _ _ (file_entry (lead ++ indent_increment))
                 (file_entry_inj _)).
        by apply sorted_NoDup.
      * apply opaque_lines_rewrite.
    + apply sorted_sorted.
    + apply sorted_perm.
    + destruct (lstrip_split closing) as (l & Hl & _ & Htake).
      unfold lead, closing_tag_indent. by rewrite Htake.
    + destruct (lstrip_split closing) as (l & _ & Hl & Htake).
      unfold lead, closing_tag_indent. by rewrite Htake.
    + apply lstrip_head.
  - by vm_compute.
Qed.

Lemma sync_single_section_witness :
  NoDup [str "fr.svg"; str "de.svg"]
  /\ synchronized [str "fr.svg"; str "de.svg"] sample_manifest
       (rewrite_lines [str "fr.svg"; str "de.svg"] sample_manifest).
Proof.
  assert (NoDup [str "fr.svg"; str "de.svg"]) as Hset.
  { apply (bool_decide_unpack _). by vm_compute. }
  split; [exact Hset|].
  refine (proj1 (proj2 (proj1 (proj2 sync_single_section)
            [str "fr.svg"; str "de.svg"] sample_manifest
            (firstn 4 sample_synchronized)
            (str "  </gresource>" ++ [NL])
            [str "</gresources>" ++ [NL]] Hset _))).
  split_and!.
  - by vm_compute.
  - by vm_compute.
  - repeat constructor.
  - repeat constructor.
Defined.

(** C1 as stated fails: with no closing line nothing is declared, and with
    two closing lines every file name is declared twice. *)
Lemma sync_any_manifest_counterexample :
  ~ synchronized [str "fr.svg"] unclosed_manifest
      (rewrite_lines [str "fr.svg"] unclosed_manifest)
  /\ ~ synchronized [str "fr.svg"] two_section_manifest
        (rewrite_lines [str "fr.svg"] two_section_manifest).
Proof.
  split.
  - intros [[indent H] _]. vm_compute in H. discriminate H.
  - intros (_ & H & _). vm_compute in H.
    apply NoDup_cons in H as [H _]. apply H. left.
Qed.

(** C2.  Running the synchronizer on its own output with the same file names
    changes nothing, on the lines and on the manifest file. *)
Theorem sync_idempotent :
  (forall svg_files lines : list pystr,
      rewrite_lines svg_files (rewrite_lines svg_files lines)
      = rewrite_lines svg_files lines)
  /\ (forall (svg_files : list pystr) (xml : manifest),
         let first_run := fst (update_gresource_xml svg_files xml) in
         fst (update_gresource_xml svg_files first_run) = first_run).
Proof.
  split.
  - apply rewrite_lines_idempotent.
  - intros svg_files [lines|]; simpl; [|done].
    by rewrite rewrite_lines_idempotent.
Qed.

(** C10.  On a manifest none of whose lines holds the closing token, the
    synchronizer removes the lines that hold both the flag directory and
    the file token and writes no declaration, for any file names; it reports
    success. *)
Theorem sync_unclosed_manifest (svg_files lines : list pystr) :
  svg_files <> [] ->
  Forall (fun l => has_closing_tag l = false) lines ->
  update_gresource_xml svg_files (Some lines)
  = (Some (opaque_lines lines),
     [str "Updating GResource XML..."; str "XML updated successfully."])
  /\ declarations (rewrite_lines svg_files lines) = []
  /\ forall filename file_indent,
       filename ∈ svg_files ->
       file_entry file_indent filename ∉ rewrite_lines svg_files lines.
Proof.
  intros _ Hc. pose proof (rewrite_lines_unclosed svg_files lines Hc) as Hout.
  split_and!.
  - simpl. by rewrite Hout.
  - rewrite Hout. apply declarations_not_flagged, opaque_lines_not_flagged.
  - intros filename file_indent _ Hin. rewrite Hout in Hin.
    pose proof (opaque_lines_not_flagged lines) as Hflag.
    rewrite Forall_forall in Hflag. specialize (Hflag _ Hin).
    by rewrite file_entry_is_flag_reference in Hflag.
Qed.

Lemma sync_unclosed_manifest_witness :
  declarations (rewrite_lines [str "fr.svg"] unclosed_manifest) = [].
Proof.
  refine (proj1 (proj2 (sync_unclosed_manifest [str "fr.svg"] unclosed_manifest _ _))).
  - discriminate.
  - repeat constructor.
Defined.

End ManifestProperties.

(** ** The country pipeline *)

Module Pipeline.
Import Countries Design PyStrFacts Manifest.

Lemma code_in_pair (cca2 a b : pystr) :
  code_in cca2 [a; b] = bool_decide (cca2 = a \/ cca2 = b).
Proof.
  unfold code_in. simpl. rewrite orb_false_r.
  by rewrite bool_decide_or.
Qed.

(** The dial code of a record with a root follows the rule; without a root
    there is none. *)
Lemma format_dial_code_rule (root : pystr) (suffixes : list pystr) (cca2 : pystr) :
  format_dial_code root suffixes cca2
  = if bool_decide (root = []) then None
    else Some (dial_code_rule root suffixes cca2).
Proof.
  unfold format_dial_code, dial_code_rule.
  rewrite !code_in_pair, !bool_decide_and.
  case_bool_decide as Hroot; [done|].
  destruct (bool_decide (root = str "+1")) eqn:Hone; simpl.
  - destruct (bool_decide (cca2 = str "US" \/ cca2 = str "CA")); simpl; [done|].
    apply bool_decide_eq_true in Hone as ->.
    destruct suffixes as [|first rest]; [|done].
    by vm_compute.
  - destruct (bool_decide (root = str "+7") && _); [done|].
    destruct suffixes; [|done]. by rewrite app_nil_r.
Qed.

Lemma dial_code_rule_nonempty (root : pystr) (suffixes : list pystr) (cca2 : pystr) :
  root <> [] -> dial_code_rule root suffixes cca2 <> [].
Proof.
  intros Hroot. unfold dial_code_rule.
  repeat case_bool_decide; try done.
  destruct suffixes as [|first rest]; [done|].
  intros [? _]%app_eq_nil. done.
Qed.

Section Run.
Variable str_lower : pystr -> pystr.
Variable str_upper : pystr -> pystr.
Variable str_isalpha : pystr -> bool.
Variable re_search_prefix : pystr -> option pystr.

Let step := process_country str_lower str_upper str_isalpha.

(** One iteration appends an item exactly for a record with a root. *)
Lemma process_country_identity (prefix : pystr) (st : loop_state) (c : country) :
  List.map item_identity (processed_list (step prefix st c))
  = List.map item_identity (processed_list st)
      ++ (if has_root c then [country_identity c] else []).
Proof.
  unfold step, process_country, has_root.
  rewrite format_dial_code_rule.
  case_bool_decide as Hroot; simpl; [by rewrite app_nil_r|].
  pose proof (dial_code_rule_nonempty _ (idd_suffixes c) (cca2 c) Hroot) as Hcode.
  unfold country_identity.
  destruct (dial_code_rule (idd_root c) (idd_suffixes c) (cca2 c)) as [|d ds]; [done|].
  destruct (download_svg _ _ _ _) as [filename net']. simpl.
  by rewrite map_app.
Qed.

Lemma process_country_dial_code (prefix : pystr) (st : loop_state) (c : country) :
  Forall (fun it => dial_code it <> []) (processed_list st) ->
  Forall (fun it => dial_code it <> []) (processed_list (step prefix st c)).
Proof.
  intros Hst. unfold step, process_country.
  destruct (format_dial_code _ _ _) as [[|d ds]|]; try done.
  destruct (download_svg _ _ _ _) as [filename net']. simpl.
  apply Forall_app. split; [done|]. by repeat constructor.
Qed.

Lemma loop_identity (prefix : pystr) (data : list country) (st : loop_state) :
  List.map item_identity (processed_list (fold_left (step prefix) data st))
  = List.map item_identity (processed_list st)
      ++ List.map country_identity (List.filter has_root data).
Proof.
  revert st. induction data as [|c data IH]; intros st; simpl.
  - by rewrite app_nil_r.
  - rewrite IH, process_country_identity, <- app_assoc.
    by destruct (has_root c).
Qed.

Lemma loop_dial_code (prefix : pystr) (data : list country) (st : loop_state) :
  Forall (fun it => dial_code it <> []) (processed_list st) ->
  Forall (fun it => dial_code it <> [])
         (processed_list (fold_left (step prefix) data st)).
Proof.
  revert st. induction data as [|c data IH]; intros st Hst; simpl; [done|].
  by apply IH, process_country_dial_code.
Qed.
End Run.

Lemma rewrite_lines_no_files (lines : list pystr) :
  rewrite_lines [] lines = opaque_lines lines.
Proof.
  rewrite rewrite_lines_flat_map. unfold opaque_lines.
  induction lines as [|line lines IH]; simpl; [done|].
  rewrite IH. unfold lines_for.
  destruct (is_flag_reference line); simpl; [done|].
  by destruct (has_closing_tag line).
Qed.

(** A run on the sample records: the record without a root is left out,
    the remaining ones are written in the order of their names, and the
    manifest lists the two flags that were downloaded. *)
Example pipeline_sample_run :
  let after := Countries.main ascii_lower (fun s => s) (fun _ => true) (fun _ => None)
                 (Some sample_records) [true; true] stale_files in
  (List.map item_identity <$> json_file after)
  = Some [ (str "Bahamas", str "BS", str "+1242");
           (str "Canada", str "CA", str "+1");
           (str "France", str "FR", str "+33") ]
  /\ xml_file after = Some (rewrite_lines [str "bs.svg"; str "fr.svg"] sample_manifest)
  /\ declarations (rewrite_lines [str "bs.svg"; str "fr.svg"] sample_manifest)
     = [ str "      <file>assets/data/svg/bs.svg</file>" ++ [NL];
         str "      <file>assets/data/svg/fr.svg</file>" ++ [NL] ].
Proof. by vm_compute. Qed.

(** C3, as amended.  The synchronizer called with no file names removes
    every flag declaration and inserts none.  The driver, however, calls it
    only when at least one file was materialized: a run that materialized
    nothing leaves the manifest as it was. *)
Theorem empty_run_keeps_manifest :
  (forall lines : list pystr,
      rewrite_lines [] lines = opaque_lines lines
      /\ declarations (rewrite_lines [] lines) = [])
  /\ (forall (str_lower str_upper : pystr -> pystr) (str_isalpha : pystr -> bool)
             (re_search_prefix : pystr -> option pystr)
             (api : option (list country)) (net : list bool) (fs : files),
         materialized str_lower str_upper str_isalpha re_search_prefix api net fs = [] ->
         xml_file (Countries.main str_lower str_upper str_isalpha re_search_prefix api net fs)
         = xml_file fs).
Proof.
  split.
  - intros lines. rewrite rewrite_lines_no_files. split; [done|].
    apply declarations_not_flagged, opaque_lines_not_flagged.
  - intros l u a re api net fs. unfold materialized, Countries.main.
    destruct api as [[|c data]|]; try done.
    by intros ->.
Qed.

Lemma empty_run_keeps_manifest_witness :
  xml_file (Countries.main (fun s => s) (fun s => s) (fun _ => true) (fun _ => None)
              (Some [flagless_country]) [] stale_files)
  = Some sample_manifest.
Proof.
  refine (proj2 empty_run_keeps_manifest (fun s => s) (fun s => s) (fun _ => true)
            (fun _ => None) (Some [flagless_country]) [] stale_files _).
  by vm_compute.
Defined.

(** C3 as stated fails: a run that materializes nothing leaves the stale
    [us.svg] declaration in the manifest. *)
Lemma empty_run_counterexample :
  ~ empty_run_clears_manifest (fun s => s) (fun s => s) (fun _ => true) (fun _ => None)
      (Some [flagless_country]) [] stale_files.
Proof.
  intros H.
  assert (declarations sample_manifest = []) as Hnone.
  { apply H; by vm_compute. }
  vm_compute in Hnone. discriminate Hnone.
Qed.

(** C5, as amended.  A record without a root has no dial code.  A record
    with a root has the dial code of the rule: [+1] for root [+1] and code
    [US] or [CA], [+7] for root [+7] and code [RU] or [KZ], whatever the
    suffixes, and otherwise the root followed by the first suffix if there is
    one. *)
Theorem dial_code_of_record (root : pystr) (suffixes : list pystr) (cca2 : pystr) :
  (root = [] -> format_dial_code root suffixes cca2 = None)
  /\ (root <> [] ->
      format_dial_code root suffixes cca2 = Some (dial_code_rule root suffixes cca2))
  /\ (root = str "+1" -> cca2 = str "US" \/ cca2 = str "CA" ->
      format_dial_code root suffixes cca2 = Some (str "+1"))
  /\ (root = str "+7" -> cca2 = str "RU" \/ cca2 = str "KZ" ->
      format_dial_code root suffixes cca2 = Some (str "+7"))
  /\ (root <> [] ->
      ~ (root = str "+1" /\ (cca2 = str "US" \/ cca2 = str "CA")) ->
      ~ (root = str "+7" /\ (cca2 = str "RU" \/ cca2 = str "KZ")) ->
      format_dial_code root suffixes cca2
      = Some match suffixes with
             | first :: _ => root ++ first
             | [] => root
             end).
Proof.
  rewrite format_dial_code_rule. split_and!.
  - by intros ->.
  - intros Hroot. by rewrite bool_decide_eq_false_2.
  - intros -> Hcode. unfold dial_code_rule.
    by rewrite (bool_decide_eq_true_2 (_ /\ _)).
  - intros -> Hcode. unfold dial_code_rule.
    rewrite (bool_decide_eq_false_2 (str "+7" = str "+1" /\ _)) by (by intros [? _]).
    by rewrite (bool_decide_eq_true_2 (_ /\ _)).
  - intros Hroot Hone Hseven. rewrite bool_decide_eq_false_2 by done.
    unfold dial_code_rule. by rewrite !bool_decide_eq_false_2.
Qed.

Lemma dial_code_of_record_witness :
  format_dial_code (str "+1") [str "242"] (str "BS") = Some (str "+1242")
  /\ format_dial_code (str "+1") [str "201"] (str "US") = Some (str "+1")
  /\ format_dial_code (str "+7") [str "3"] (str "RU") = Some (str "+7")
  /\ format_dial_code [] [str "44"] (str "GB") = None.
Proof.
  split_and!.
  - refine (proj2 (proj2 (proj2 (proj2
      (dial_code_of_record (str "+1") [str "242"] (str "BS"))))) _ _ _).
    + discriminate.
    + intros [_ [H|H]]; discriminate H.
    + intros [H _]; discriminate H.
  - refine (proj1 (proj2 (proj2
      (dial_code_of_record (str "+1") [str "201"] (str "US")))) _ _);
      [reflexivity | by left].
  - refine (proj1 (proj2 (proj2 (proj2
      (dial_code_of_record (str "+7") [str "3"] (str "RU"))))) _ _);
      [reflexivity | by left].
  - exact (proj1 (dial_code_of_record [] [str "44"] (str "GB")) eq_refl).
Defined.

(** C5 as stated fails for a record without a root: the rule gives the first
    suffix, the code gives nothing. *)
Lemma dial_code_without_root_counterexample :
  dial_code_rule [] [str "44"] (str "GB") = str "44"
  /\ format_dial_code [] [str "44"] (str "GB") = None
  /\ format_dial_code [] [str "44"] (str "GB")
     <> Some (dial_code_rule [] [str "44"] (str "GB")).
Proof. split_and!; [by vm_compute | by vm_compute | discriminate]. Qed.

(** C7.  When the pipeline writes the record list, every written record has
    a non-empty dial code, and the written records are, in order, those of
    the sorted upstream records that have a dialing root: a record without
    one is not written.  Without upstream data nothing is written. *)
Theorem persisted_records_have_dial_code
    (str_lower str_upper : pystr -> pystr) (str_isalpha : pystr -> bool)
    (re_search_prefix : pystr -> option pystr)
    (api : option (list country)) (net : list bool) (fs : files) :
  let after := Countries.main str_lower str_upper str_isalpha re_search_prefix api net fs in
  match api with
  | Some (c :: rest) =>
    exists items,
      json_file after = Some items
      /\ Forall (fun it => dial_code it <> []) items
      /\ List.map item_identity items
         = List.map country_identity
             (List.filter has_root
                (sorted_by (fun x => default [] (name_common x)) (c :: rest)))
      /\ Forall (fun x => idd_root x <> [])
           (List.filter has_root
              (sorted_by (fun x => default [] (name_common x)) (c :: rest)))
  | _ => json_file after = json_file fs
  end.
Proof.
  destruct api as [[|c rest]|]; simpl; try done.
  eexists. split; [reflexivity|]. unfold process_countries. split_and!.
  - by apply loop_dial_code.
  - by rewrite loop_identity.
  - apply Forall_forall. intros x Hx.
    apply list_elem_of_In, filter_In in Hx as [_ Hx].
    unfold has_root in Hx. apply negb_true_iff in Hx.
    by apply bool_decide_eq_false in Hx.
Qed.

End Pipeline.

(** ** String extraction *)

Module Harvest.
Import Extract Design PyStrFacts.

(** Induction on a JSON value, with the hypothesis for every element of a
    list and every value of a dict. *)
Lemma json_nested_ind (P : json -> Prop) :
  P JNull -> (forall b, P (JBool b)) -> (forall z, P (JInt z)) ->
  (forall f, P (JFloat f)) -> (forall s, P (JStr s)) ->
  (forall items, Forall P items -> P (JList items)) ->
  (forall items, Forall (fun entry => P entry.2) items -> P (JDict items)) ->
  forall v, P v.
Proof.
  intros Hnull Hbool Hint Hfloat Hstr Hlist Hdict.
  fix IH 1. intros [ | b | z | f | s | items | items ].
  - exact Hnull.
  - apply Hbool.
  - apply Hint.
  - apply Hfloat.
  - apply Hstr.
  - apply Hlist. revert items. fix IHitems 1.
    intros [|item rest]; constructor; [apply IH | apply IHitems].
  - apply Hdict. revert items. fix IHitems 1.
    intros [|[key value] rest]; constructor; [apply IH | apply IHitems].
Qed.

Lemma elem_of_add_if_text (v : json) (string_set : gset pystr) (s : pystr) :
  s ∈ add_if_text v string_set <-> s ∈ string_set \/ text_of v s.
Proof.
  unfold add_if_text, text_of.
  destruct v; try (split; [by left | by intros [?|(text & [=] & _)]]).
  case_bool_decide as Hempty.
  - split; [by left|]. intros [?|(text & [= <-] & ? & _)]; done.
  - rewrite elem_of_union, elem_of_singleton. naive_solver.
Qed.

Lemma elem_of_add_each (items : list json) (string_set : gset pystr) (s : pystr) :
  s ∈ fold_left (fun acc item => add_if_text item acc) items string_set
  <-> s ∈ string_set \/ exists item, item ∈ items /\ text_of item s.
Proof.
  revert string_set. induction items as [|item items IH]; intros string_set; simpl.
  - split; [by left|]. intros [?|(item & Hin & _)]; [done|]. by apply elem_of_nil in Hin.
  - rewrite IH, elem_of_add_if_text. setoid_rewrite elem_of_cons. naive_solver.
Qed.

Lemma elem_of_harvest (value : json) (string_set : gset pystr) (s : pystr) :
  s ∈ harvest value string_set <-> s ∈ string_set \/ value_yields value s.
Proof.
  unfold value_yields. destruct value; unfold harvest;
    try (split; [by left | unfold text_of; naive_solver]).
  - rewrite elem_of_add_if_text. unfold text_of. naive_solver.
  - rewrite elem_of_add_each. unfold text_of. naive_solver.
Qed.

(** The three ways a mapping yields a string, entry by entry. *)
Lemma harvested_dict (keys : gset pystr) (items : list (pystr * json)) (s : pystr) :
  harvested keys (JDict items) s
  <-> exists entry, entry ∈ items /\ entry_yields keys entry s.
Proof.
  unfold entry_yields, value_yields, text_of. split.
  - inversion 1; subst.
    + exists (key, JStr text). naive_solver.
    + exists (key, JList elements). split; [done|]. left. split; [done|]. right.
      exists elements, (JStr text). naive_solver.
    + exists (key, value). naive_solver.
  - intros ([key value] & Hin & [[Hkey Hyield]|[Hkey Hrec]]); simpl in *.
    + destruct Hyield as [(text & -> & ? & ->)|(l & item & -> & ? & text & -> & ? & ->)].
      * by eapply harvested_direct.
      * by eapply harvested_element.
    + by eapply harvested_under_key.
Qed.

Lemma harvested_list (keys : gset pystr) (items : list json) (s : pystr) :
  harvested keys (JList items) s
  <-> exists item, item ∈ items /\ harvested keys item s.
Proof.
  split.
  - inversion 1; subst. naive_solver.
  - intros (item & ? & ?). by eapply harvested_in_sequence.
Qed.

Lemma harvested_scalar (keys : gset pystr) (v : json) (s : pystr) :
  match v with JList _ | JDict _ => False | _ => True end ->
  ~ harvested keys v s.
Proof. intros Hv H. by inversion H; subst. Qed.

Lemma or_exists_cons {A : Type} (P : A -> Prop) (Q : Prop) (x : A) (l : list A) :
  (Q \/ P x) \/ (exists y, y ∈ l /\ P y) <-> Q \/ exists y, y ∈ x :: l /\ P y.
Proof.
  split.
  - intros [[?|?]|(y & ? & ?)]; [by left | right; exists x | right; exists y].
    + split; [left|done].
    + split; [by right|done].
  - intros [?|(y & Hin & ?)]; [by left; left|].
    apply elem_of_cons in Hin as [->|?]; [left; by right | right; by exists y].
Qed.

Lemma or_exists_nil {A : Type} (P : A -> Prop) (Q : Prop) :
  Q <-> Q \/ exists y : A, y ∈ [] /\ P y.
Proof.
  split; [by left|]. intros [?|(y & Hin & _)]; [done|]. by apply elem_of_nil in Hin.
Qed.

Lemma entry_yields_translatable (keys : gset pystr) (key : pystr) (value : json) (s : pystr) :
  key ∈ keys -> entry_yields keys (key, value) s <-> value_yields value s.
Proof. unfold entry_yields. simpl. tauto. Qed.

Lemma entry_yields_other (keys : gset pystr) (key : pystr) (value : json) (s : pystr) :
  key ∉ keys -> entry_yields keys (key, value) s <-> harvested keys value s.
Proof. unfold entry_yields. simpl. tauto. Qed.

(** The recursive extractor adds to the set exactly the harvested strings. *)
Lemma elem_of_extract (keys : gset pystr) (v : json) :
  forall (string_set : gset pystr) (s : pystr),
    s ∈ extract_strings_recursive keys v string_set
    <-> s ∈ string_set \/ harvested keys v s.
Proof.
  induction v as [ | b | z | f | text | items IH | items IH ] using json_nested_ind;
    intros string_set s.
  1-5: simpl; split; [by left | intros [?|H]; [done | by apply harvested_scalar in H]].
  - rewrite harvested_list. simpl. revert string_set.
    induction IH as [|item rest Hitem _ IHrest]; intros string_set.
    + apply or_exists_nil.
    + etrans; [apply IHrest|].
      etrans; [|apply (or_exists_cons (fun item => harvested keys item s))].
      apply or_iff_compat_r, Hitem.
  - rewrite harvested_dict. simpl. revert string_set.
    induction IH as [|[key value] rest Hvalue _ IHrest]; intros string_set.
    + apply or_exists_nil.
    + etrans; [apply IHrest|].
      etrans; [|apply (or_exists_cons (fun entry => entry_yields keys entry s))].
      apply or_iff_compat_r. simpl in Hvalue. case_bool_decide as Hkey.
      * by rewrite elem_of_harvest, entry_yields_translatable.
      * by rewrite Hvalue, entry_yields_other.
Qed.

Lemma harvested_trimmed (keys : gset pystr) (v : json) (s : pystr) :
  harvested keys v s -> s <> [] /\ exists text, s = strip text.
Proof. induction 1; eauto. Qed.

(** C4.  The extractor returns, besides what the set held, exactly the
    harvested strings: the trimmed, non-empty text of string values of
    translatable keys and of string elements of list values of such keys,
    searched for below every other key and every list element, and never
    below a translatable key.  On the [coffee] sample with the keys [name]
    and [keywords] (and with the keys of the script) the result is
    [Coffee], [drink], [hot]. *)
Theorem extraction_is_harvest :
  (forall (keys : gset pystr) (v : json) (string_set : gset pystr) (s : pystr),
      s ∈ extract_strings_recursive keys v string_set
      <-> s ∈ string_set \/ harvested keys v s)
  /\ (forall (keys : gset pystr) (v : json) (s : pystr),
         s ∈ extract_strings_recursive keys v ∅
         <-> harvested keys v s)
  /\ (forall (keys : gset pystr) (v : json) (s : pystr),
         s ∈ extract_strings_recursive keys v ∅ ->
         s <> [] /\ exists text, s = strip text)
  /\ extract_strings_recursive {[ str "name"; str "keywords" ]} coffee ∅
     = {[ str "Coffee"; str "drink"; str "hot" ]}
  /\ extract_strings_recursive TRANSLATABLE_KEYS coffee ∅
     = {[ str "Coffee"; str "drink"; str "hot" ]}.
Proof.
  assert (forall keys v s,
             s ∈ extract_strings_recursive keys v ∅ <-> harvested keys v s) as Hempty.
  { intros keys v s. rewrite elem_of_extract. split; [|by right].
    intros [H|H]; [|done]. by apply not_elem_of_empty in H. }
  split_and!.
  - intros keys v. apply elem_of_extract.
  - exact Hempty.
  - intros keys v s H. eapply harvested_trimmed. by apply Hempty.
  - by vm_compute.
  - by vm_compute.
Qed.

Lemma extraction_is_harvest_witness :
  str "Coffee" ∈ extract_strings_recursive {[ str "name"; str "keywords" ]} coffee ∅
  /\ str "Coffee" <> [] /\ exists text, str "Coffee" = strip text.
Proof.
  assert (str "Coffee"
            ∈ extract_strings_recursive {[ str "name"; str "keywords" ]} coffee ∅) as Hin.
  { rewrite (proj1 (proj2 (proj2 (proj2 extraction_is_harvest)))). set_solver. }
  split; [exact Hin|].
  exact (proj1 (proj2 (proj2 extraction_is_harvest)) _ _ _ Hin).
Defined.

(** The root mapping [data: nested_data] gives the string of
    [nested_data], while [nested_data] as the root gives none: its own
    [data] key is unwrapped in turn.  So a root mapping with a key [data]
    does not always give what the value of that key gives. *)
Lemma data_key_nested_counterexample :
  process_json_file TRANSLATABLE_KEYS (Some (JDict [(str "data", nested_data)])) ∅
  = (1%nat, {[ str "Top" ]})
  /\ process_json_file TRANSLATABLE_KEYS (Some nested_data) ∅ = (0%nat, ∅)
  /\ ~ wrapping_is_transparent TRANSLATABLE_KEYS ∅ nested_data.
Proof.
  split_and!; [by vm_compute..|].
  intros H. specialize (H [(str "data", nested_data)] eq_refl).
  vm_compute in H. discriminate H.
Qed.

(** C6.  A root mapping with a key [data] is replaced by the value of that
    key, once, before the extractor runs: the strings are those the extractor
    finds in that value.  When that value is not itself a mapping with a key
    [data], the root mapping gives the count and the strings that the value
    gives as the root; when it is one, the value as the root gives what the
    extractor finds below its own [data] key.  A root without the key, and a
    root that is no mapping, is given to the extractor as it is.  The wrapped
    sample list gives what the bare list gives. *)
Theorem data_key_is_unwrapped (keys : gset pystr) (string_set : gset pystr) :
  (forall (items : list (pystr * json)) (inner : json),
      dict_get (str "data") items = Some inner ->
      has_data_key inner = false ->
      process_json_file keys (Some (JDict items)) string_set
      = process_json_file keys (Some inner) string_set)
  /\ (forall (items : list (pystr * json)) (inner : json),
         dict_get (str "data") items = Some inner ->
         (process_json_file keys (Some (JDict items)) string_set).2
         = extract_strings_recursive keys inner string_set)
  /\ (forall (items items' : list (pystr * json)) (inner : json),
         dict_get (str "data") items = Some (JDict items') ->
         dict_get (str "data") items' = Some inner ->
         (process_json_file keys (Some (JDict items)) string_set).2
         = extract_strings_recursive keys (JDict items') string_set
         /\ (process_json_file keys (Some (JDict items')) string_set).2
            = extract_strings_recursive keys inner string_set)
  /\ (forall items : list (pystr * json),
         dict_get (str "data") items = None ->
         (process_json_file keys (Some (JDict items)) string_set).2
         = extract_strings_recursive keys (JDict items) string_set)
  /\ (forall root : json,
         (forall items, root <> JDict items) ->
         (process_json_file keys (Some root) string_set).2
         = extract_strings_recursive keys root string_set)
  /\ process_json_file keys (Some wrapped_list) string_set
     = process_json_file keys (Some bare_list) string_set.
Proof.
  split_and!.
  - intros items inner Hdata Hinner. unfold process_json_file.
    replace (unwrap_data inner) with inner; [unfold unwrap_data; by rewrite Hdata|].
    destruct inner as [| | | | | |items']; try done.
    unfold has_data_key in Hinner. unfold unwrap_data.
    by destruct (dict_get (str "data") items').
  - intros items inner Hdata. unfold process_json_file, unwrap_data. by rewrite Hdata.
  - intros items items' inner Hdata Hdata'. unfold process_json_file, unwrap_data.
    by rewrite Hdata, Hdata'.
  - intros items Hdata. unfold process_json_file, unwrap_data. by rewrite Hdata.
  - intros root Hroot. unfold process_json_file, unwrap_data.
    destruct root; try done. by destruct (Hroot items).
  - done.
Qed.

Lemma data_key_is_unwrapped_witness :
  has_data_key bare_list = false
  /\ process_json_file TRANSLATABLE_KEYS (Some wrapped_list) ∅
     = process_json_file TRANSLATABLE_KEYS (Some bare_list) ∅
  /\ (process_json_file TRANSLATABLE_KEYS (Some coffee) ∅).2
     = extract_strings_recursive TRANSLATABLE_KEYS coffee ∅
  /\ (process_json_file TRANSLATABLE_KEYS (Some bare_list) ∅).2
     = extract_strings_recursive TRANSLATABLE_KEYS bare_list ∅.
Proof.
  split_and!.
  - reflexivity.
  - by refine (proj1 (data_key_is_unwrapped TRANSLATABLE_KEYS ∅) _ bare_list _ _).
  - by refine (proj1 (proj2 (proj2 (proj2 (data_key_is_unwrapped TRANSLATABLE_KEYS ∅))))
                 _ _).
  - by refine (proj1 (proj2 (proj2 (proj2 (proj2
                 (data_key_is_unwrapped TRANSLATABLE_KEYS ∅))))) bare_list _).
Defined.

End Harvest.

(** ** The template emitter and the driver *)

Module Template.
Import Extract Design PyStrFacts.

(** The two replacements escape each backslash and each double quote once. *)
Lemma escape_string_escaped (s : pystr) : escape_string s = escaped s.
Proof.
  unfold escape_string, escaped, replace_char.
  induction s as [|c s IH]; simpl; [done|].
  rewrite flat_map_app, IH.
  destruct (N.eqb_spec c BACKSLASH) as [->|Hb]; [done|].
  simpl. by destruct (N.eqb_spec c QUOTE) as [->|Hq].
Qed.

Lemma elem_of_sorted_strings (strings : gset pystr) (s : pystr) :
  s ∈ sorted (elements (strings ∖ {[ [] ]})) <-> s ∈ strings /\ s <> [].
Proof.
  rewrite sorted_perm, elem_of_elements, elem_of_difference, elem_of_singleton.
  done.
Qed.

(** C8.  The emitter writes the header, then one block per string of the
    set, the empty string left out, in sorted order and each once; a block is
    the comment line with all file names joined by a comma and a space, the
    [msgid] line with the escaped string and an empty [msgstr] line followed
    by an empty line.  It returns the number of blocks.  For the set holding
    only [Coffee] that is one block. *)
Theorem template_document (creation_date : pystr) (source_files : list pystr) :
  (forall strings : gset pystr,
      exists sorted_strings : list pystr,
        generate_pot_file creation_date strings source_files
        = (POT_HEADER_TEMPLATE creation_date
             ++ concat (List.map
                  (fun s =>
                     (str "#: " ++ join (str ", ") source_files ++ [NL])
                     ++ (str "msgid " ++ [QUOTE] ++ escaped s ++ [QUOTE; NL])
                     ++ (str "msgstr " ++ [QUOTE; QUOTE; NL; NL]))
                  sorted_strings),
           length sorted_strings)
        /\ Sorted (fun a b => str_le a b = true) sorted_strings
        /\ NoDup sorted_strings
        /\ (forall s, s ∈ sorted_strings <-> s ∈ strings /\ s <> [])
        /\ length sorted_strings = size (strings ∖ {[ [] ]}))
  /\ generate_pot_file creation_date {[ str "Coffee" ]} source_files
     = (POT_HEADER_TEMPLATE creation_date
          ++ (str "#: " ++ join (str ", ") source_files ++ [NL])
          ++ (str "msgid " ++ [QUOTE] ++ str "Coffee" ++ [QUOTE; NL])
          ++ (str "msgstr " ++ [QUOTE; QUOTE; NL; NL]),
        1%nat).
Proof.
  split.
  - intros strings. exists (sorted (elements (strings ∖ {[ [] ]}))). split_and!.
    + unfold generate_pot_file. do 3 f_equal.
      apply List.map_ext. intros s. unfold message_block.
      by rewrite escape_string_escaped.
    + apply sorted_sorted.
    + apply sorted_NoDup, NoDup_elements.
    + apply elem_of_sorted_strings.
    + by rewrite sorted_perm.
  - unfold generate_pot_file.
    replace ({[ str "Coffee" ]} ∖ {[ [] ]} : gset pystr) with ({[ str "Coffee" ]} : gset pystr).
    + rewrite elements_singleton. simpl. by rewrite app_nil_r.
    + apply set_eq. intros s.
      rewrite elem_of_difference, !elem_of_singleton. split; [|by intros [? _]].
      by intros ->.
Qed.

Lemma skip_listed_cons (json_path : pystr * option json)
    (rest : list (pystr * option json)) :
  skip_listed (json_path :: rest)
  = if bool_decide (json_path.1 ∈ SKIP_FILES) then
      print (str "  Skipping: " ++ json_path.1 ++ str " (in skip list)");;
      skip_listed rest
    else
      json_files ← skip_listed rest;
      mret (json_path :: json_files).
Proof. reflexivity. Qed.

(** Discovery over entries that are all on the skip list finds nothing and
    only prints. *)
Lemma skip_listed_all_skipped (globbed : list (pystr * option json)) (log : list event) :
  Forall (fun e => e.1 ∈ SKIP_FILES) globbed ->
  exists skipped,
    skip_listed globbed log = (Done [], log ++ skipped)
    /\ Forall (fun e => is_print e = true) skipped.
Proof.
  intros Hall. revert log. induction Hall as [|entry rest Hskip _ IH]; intros log.
  - exists []. by rewrite app_nil_r.
  - rewrite skip_listed_cons, bool_decide_eq_true_2 by done.
    unfold mbind, script_bind, print, emit.
    destruct (IH (log ++ [Print (str "  Skipping: " ++ entry.1 ++ str " (in skip list)")]))
      as (skipped & -> & Hprints).
    eexists (_ :: skipped). split.
    + by rewrite <- app_assoc.
    + by constructor.
Qed.

Lemma discover_nothing (entries : list (pystr * option json)) (log : list event) :
  nothing_eligible entries ->
  exists skipped,
    discover_json_files entries log = (Done [], log ++ skipped)
    /\ Forall (fun e => is_print e = true) skipped.
Proof.
  intros Hnone. apply skip_listed_all_skipped, sorted_by_Forall.
  unfold glob_json. apply Forall_forall. intros e He.
  apply list_elem_of_In, filter_In in He as [He Hjson].
  unfold nothing_eligible in Hnone. rewrite Forall_forall in Hnone.
  by apply Hnone; [apply list_elem_of_In|].
Qed.

(** A run on the sample directory: two files are read, the template is
    written with the four strings found, and the status is 0. *)
Example template_sample_run :
  run sample_fs (str "2025-01-01 00:00+0000")
      (fun p => p) (fun _ => str "translation") no_detail permitted permitted
      [str "extract-data-strings.py"; str "out.pot"; str "json"]
  = (0%Z,
     [ Print (str "Scanning directory: json"); Print [];
       Print (str "  Skipping: countries.json (in skip list)");
       Print (str "Found 2 JSON file(s) to process:");
       Print (str "  - a.json"); Print (str "  - b.json"); Print [];
       Open (str "a.json"); Print (str "  a.json: 1 new strings");
       Open (str "b.json"); Print (str "  b.json: 3 new strings");
       Print [];
       Mkdir (str "translation");
       WriteFile (str "out.pot")
         (generate_pot_file (str "2025-01-01 00:00+0000")
            {[ str "X"; str "Coffee"; str "drink"; str "hot" ]}
            [str "a.json"; str "b.json"]).1;
       Print (str "Generated 'out.pot' with 4 unique translatable strings.") ]).
Proof. by vm_compute. Qed.

(** C9.  With an argument count other than three (the script name and two
    arguments), with an input path that does not exist, or with one that is
    not a directory, the script prints its message and exits with status 1
    without opening, creating or writing anything.  With an input directory
    in which every [*.json] entry is on the skip list it prints that there is
    nothing to process and exits with status 0, again without opening or
    writing anything. *)
Theorem usage_and_empty_directory (fs : pystr -> option node)
    (creation_date : pystr) (path_str path_parent : pystr -> pystr)
    (failure_of : pystr -> load_failure) (mkdir_ok open_ok : pystr -> bool) :
  (forall argv : list pystr,
      length argv <> 3%nat ->
      run fs creation_date path_str path_parent failure_of mkdir_ok open_ok argv
      = (1%Z,
         [Print (str "Usage: python extract-data-strings.py <output_file.pot> <input_dir>");
          Print (str "Example: python extract-data-strings.py gnome-extensions/translation/data-content.pot gnome-extensions/extension/assets/data/json")]))
  /\ (forall prog output_file input_dir : pystr,
         fs input_dir = None ->
         run fs creation_date path_str path_parent failure_of mkdir_ok open_ok [prog; output_file; input_dir]
         = (1%Z,
            [Print (str "Error: Input directory '" ++ path_str input_dir
                    ++ str "' does not exist.")]))
  /\ (forall prog output_file input_dir : pystr,
         fs input_dir = Some File ->
         run fs creation_date path_str path_parent failure_of mkdir_ok open_ok [prog; output_file; input_dir]
         = (1%Z,
            [Print (str "Error: '" ++ path_str input_dir ++ str "' is not a directory.")]))
  /\ (forall (prog output_file input_dir : pystr) (entries : list (pystr * option json)),
         fs input_dir = Some (Directory entries) ->
         nothing_eligible entries ->
         exists skipped,
           run fs creation_date path_str path_parent failure_of mkdir_ok open_ok [prog; output_file; input_dir]
           = (0%Z,
              [Print (str "Scanning directory: " ++ path_str input_dir); Print []]
                ++ skipped ++ [Print (str "No JSON files found to process.")])
           /\ Forall (fun e => is_print e = true) skipped).
Proof.
  split_and!.
  - intros argv Hlen. unfold run, main.
    destruct argv as [|a0 [|a1 [|a2 [|a3 argv]]]]; try done.
  - intros prog output_file input_dir Hfs. unfold run, main. by rewrite Hfs.
  - intros prog output_file input_dir Hfs. unfold run, main. by rewrite Hfs.
  - intros prog output_file input_dir entries Hfs Hnone. unfold run, main.
    rewrite Hfs. unfold mbind, script_bind, print, emit. cbn [app].
    destruct (discover_nothing entries
                [Print (str "Scanning directory: " ++ path_str input_dir); Print []] Hnone)
      as (skipped & -> & Hprints).
    exists skipped. split; [|done]. unfold sys_exit. by rewrite <- app_assoc.
Qed.

Lemma usage_and_empty_directory_witness :
  (run (fun _ => None) [] (fun p => p) (fun p => p) no_detail permitted permitted
       [str "extract-data-strings.py"]).1 = 1%Z
  /\ (run (fun _ => None) [] (fun p => p) (fun p => p) no_detail permitted permitted
          [str "extract-data-strings.py"; str "out.pot"; str "missing"]).1 = 1%Z
  /\ (run (fun _ => Some File) [] (fun p => p) (fun p => p) no_detail permitted permitted
          [str "extract-data-strings.py"; str "out.pot"; str "file"]).1 = 1%Z
  /\ exists skipped,
       run (fun _ => Some (Directory [(str "countries.json", None); (str "notes.txt", None)]))
           [] (fun p => p) (fun p => p) no_detail permitted permitted
           [str "extract-data-strings.py"; str "out.pot"; str "json"]
       = (0%Z,
          [Print (str "Scanning directory: " ++ str "json"); Print []]
            ++ skipped ++ [Print (str "No JSON files found to process.")])
       /\ Forall (fun e => is_print e = true) skipped.
Proof.
  split_and!.
  - rewrite (proj1 (usage_and_empty_directory (fun _ => None) [] (fun p => p) (fun p => p)
                      no_detail permitted permitted)
               [str "extract-data-strings.py"]); [reflexivity | discriminate].
  - rewrite (proj1 (proj2 (usage_and_empty_directory (fun _ => None) [] (fun p => p)
                             (fun p => p) no_detail permitted permitted))
               _ _ (str "missing")); reflexivity.
  - rewrite (proj1 (proj2 (proj2 (usage_and_empty_directory (fun _ => Some File) []
                                    (fun p => p) (fun p => p)
                                    no_detail permitted permitted)))
               _ _ (str "file")); reflexivity.
  - refine (proj2 (proj2 (proj2 (usage_and_empty_directory _ [] (fun p => p) (fun p => p)
                                   no_detail permitted permitted)))
              _ _ (str "json") _ eq_refl _).
    apply Forall_cons. split; [|apply Forall_cons; split; [|by apply Forall_nil]].
    + intros _. apply (bool_decide_unpack _). by vm_compute.
    + intros H. vm_compute in H. discriminate H.
Defined.

End Template.

(** ** More on the manifest synchronizer *)

Module ManifestBehaviour.
Import Countries Design Behaviour PyStrFacts Manifest.

(** X1.  A synchronization replaces the previous one: synchronizing with
    one list of file names and then with another gives what synchronizing
    with the second list alone gives, on the lines and on the file. *)
Theorem sync_replaces_previous :
  (forall svg_files svg_files' lines : list pystr,
      rewrite_lines svg_files' (rewrite_lines svg_files lines)
      = rewrite_lines svg_files' lines)
  /\ (forall (svg_files svg_files' : list pystr) (xml : manifest),
         fst (update_gresource_xml svg_files' (fst (update_gresource_xml svg_files xml)))
         = fst (update_gresource_xml svg_files' xml)).
Proof.
  assert (forall svg_files svg_files' lines : list pystr,
             rewrite_lines svg_files' (rewrite_lines svg_files lines)
             = rewrite_lines svg_files' lines) as Hlines.
  { intros svg_files svg_files' lines.
    rewrite (rewrite_lines_opaque svg_files' (rewrite_lines _ _)).
    by rewrite opaque_lines_rewrite, <- rewrite_lines_opaque. }
  split; [exact Hlines|].
  intros svg_files svg_files' [lines|]; simpl; [|done].
  by rewrite Hlines.
Qed.

(** X2.  The order in which the file names are given does not matter: two
    lists with the same elements give the same manifest. *)
Theorem sync_order_irrelevant (svg_files svg_files' lines : list pystr) :
  svg_files ≡ₚ svg_files' ->
  rewrite_lines svg_files lines = rewrite_lines svg_files' lines.
Proof.
  intros Hperm. rewrite !rewrite_lines_flat_map.
  apply flat_map_ext. intros line. unfold lines_for.
  by rewrite (sorted_unique _ _ Hperm).
Qed.

Lemma sync_order_irrelevant_witness :
  rewrite_lines [str "fr.svg"; str "de.svg"] sample_manifest
  = rewrite_lines [str "de.svg"; str "fr.svg"] sample_manifest.
Proof.
  apply (sync_order_irrelevant [str "fr.svg"; str "de.svg"] [str "de.svg"; str "fr.svg"]).
  apply Permutation_swap.
Defined.

(** X3.  The flag declarations a manifest held before do not matter: two
    manifests with the same opaque lines are synchronized to the same
    lines. *)
Theorem sync_ignores_old_declarations (svg_files lines lines' : list pystr) :
  opaque_lines lines = opaque_lines lines' ->
  rewrite_lines svg_files lines = rewrite_lines svg_files lines'.
Proof.
  intros Hsame.
  by rewrite (rewrite_lines_opaque _ lines), (rewrite_lines_opaque _ lines'), Hsame.
Qed.

Lemma sync_ignores_old_declarations_witness :
  rewrite_lines [str "bs.svg"] sample_manifest
  = rewrite_lines [str "bs.svg"] sample_synchronized.
Proof.
  apply (sync_ignores_old_declarations [str "bs.svg"] sample_manifest sample_synchronized).
  by vm_compute.
Defined.

Lemma in_lines_for (svg_files : list pystr) (line l : pystr) :
  In l (lines_for svg_files line) ->
  is_flag_reference l = true ->
  is_flag_reference line = false /\ has_closing_tag line = true
  /\ exists filename,
       In filename svg_files
       /\ l = file_entry (closing_tag_indent line ++ indent_increment) filename.
Proof.
  unfold lines_for. intros Hin Hflag.
  destruct (is_flag_reference line) eqn:Hline; [done|].
  destruct (has_closing_tag line) eqn:Hclose.
  - apply in_app_or in Hin as [Hin|[<-|[]]]; [|congruence].
    apply in_map_iff in Hin as (filename & <- & Hin).
    split_and!; [done..|]. exists filename. split; [|done].
    by apply list_elem_of_In; rewrite <- (sorted_perm svg_files); apply list_elem_of_In.
  - destruct Hin as [<-|[]]. congruence.
Qed.

Lemma declaration_origin (svg_files lines : list pystr) (l : pystr) :
  l ∈ declarations (rewrite_lines svg_files lines) ->
  exists closing filename,
    closing ∈ opaque_lines lines /\ has_closing_tag closing = true
    /\ filename ∈ svg_files
    /\ l = file_entry (closing_tag_indent closing ++ indent_increment) filename.
Proof.
  rewrite rewrite_lines_flat_map.
  intros Hl. apply list_elem_of_In, filter_In in Hl as [Hl Hflag].
  apply in_flat_map in Hl as (line & Hline & Hl).
  destruct (in_lines_for _ _ _ Hl Hflag) as (Hopaque & Hclose & filename & Hf & ->).
  exists line, filename. split_and!; [|done|by apply list_elem_of_In|done].
  apply list_elem_of_In, filter_In. split; [done|]. by rewrite Hopaque.
Qed.

(** X4.  Whatever the manifest, the declarations are written immediately
    before every opaque line that contains the closing tag: wherever the
    opaque lines split into the lines before such a line, the line and the
    lines after it, the output is the output for the lines before, then one
    declaration per given file name in sorted order with the indentation of
    the closing line plus four spaces, then the closing line, then the output
    for the lines after; and a part that holds no closing line is copied as it
    is.  Hence every flag declaration of the output was written for one of
    the given file names before a closing line of the input: no earlier
    declaration survives. *)
Theorem sync_declarations (svg_files lines : list pystr) :
  (forall (pre : list pystr) (closing : pystr) (post : list pystr),
      opaque_lines lines = pre ++ closing :: post ->
      has_closing_tag closing = true ->
      rewrite_lines svg_files lines
      = rewrite_lines svg_files pre
          ++ List.map (file_entry (closing_tag_indent closing ++ indent_increment))
                      (sorted svg_files)
          ++ closing :: rewrite_lines svg_files post
      /\ (Forall (fun l => has_closing_tag l = false) pre ->
          rewrite_lines svg_files pre = pre)
      /\ (Forall (fun l => has_closing_tag l = false) post ->
          rewrite_lines svg_files post = post))
  /\ (forall l,
         l ∈ declarations (rewrite_lines svg_files lines) ->
         exists closing filename,
           closing ∈ opaque_lines lines /\ has_closing_tag closing = true
           /\ filename ∈ svg_files
           /\ l = file_entry (closing_tag_indent closing ++ indent_increment) filename).
Proof.
  split; [|apply declaration_origin].
  intros pre closing post Hsplit Hclose.
  pose proof (opaque_lines_not_flagged lines) as Hopaque.
  rewrite Hsplit in Hopaque.
  apply Forall_app in Hopaque as [Hpre Hpost].
  apply Forall_cons in Hpost as [Hclosing Hpost].
  split_and!.
  - rewrite (rewrite_lines_opaque _ lines), Hsplit, !rewrite_lines_flat_map.
    rewrite flat_map_app. f_equal.
    change (flat_map (lines_for svg_files) (closing :: post))
      with (lines_for svg_files closing ++ flat_map (lines_for svg_files) post).
    unfold lines_for at 1. rewrite Hclosing, Hclose. by rewrite <- app_assoc.
  - intros Hplain. rewrite rewrite_lines_flat_map. by apply flat_map_plain.
  - intros Hplain. rewrite rewrite_lines_flat_map. by apply flat_map_plain.
Qed.

Lemma sync_declarations_witness :
  rewrite_lines [str "fr.svg"; str "de.svg"] two_section_manifest
  = rewrite_lines [str "fr.svg"; str "de.svg"] (firstn 4 two_section_manifest)
      ++ [ str "      <file>assets/data/svg/de.svg</file>" ++ [NL];
           str "      <file>assets/data/svg/fr.svg</file>" ++ [NL] ]
      ++ (str "  </gresource>" ++ [NL]) :: [str "</gresources>" ++ [NL]]
  /\ rewrite_lines [str "fr.svg"; str "de.svg"] (firstn 4 two_section_manifest)
     = firstn 2 two_section_manifest
         ++ [ str "      <file>assets/data/svg/de.svg</file>" ++ [NL];
              str "      <file>assets/data/svg/fr.svg</file>" ++ [NL] ]
         ++ (str "  </gresource>" ++ [NL])
            :: [str "  <gresource prefix=" ++ [QUOTE] ++ str "/b" ++ [QUOTE] ++ str ">"
                ++ [NL]].
Proof.
  split.
  - destruct (proj1 (sync_declarations [str "fr.svg"; str "de.svg"] two_section_manifest)
                (firstn 4 two_section_manifest) (str "  </gresource>" ++ [NL])
                [str "</gresources>" ++ [NL]] eq_refl eq_refl)
      as (Hout & _ & Hpost).
    rewrite Hpost in Hout by (repeat constructor).
    etrans; [exact Hout|]. by vm_compute.
  - destruct (proj1 (sync_declarations [str "fr.svg"; str "de.svg"]
                       (firstn 4 two_section_manifest))
                (firstn 2 two_section_manifest) (str "  </gresource>" ++ [NL])
                [str "  <gresource prefix=" ++ [QUOTE] ++ str "/b" ++ [QUOTE] ++ str ">"
                 ++ [NL]] eq_refl eq_refl)
      as (Hout & Hpre & Hpost).
    rewrite Hpre, Hpost in Hout by (repeat constructor).
    etrans; [exact Hout|]. by vm_compute.
Defined.

End ManifestBehaviour.

(** ** More on the country pipeline *)

Module PipelineBehaviour.
Import Countries Design Behaviour PyStrFacts Manifest Pipeline.

Lemma startswith_refl (s : pystr) : startswith s s = true.
Proof. rewrite <- (app_nil_r s) at 1. apply startswith_app. Qed.

Lemma endswith_app (s suffix : pystr) : endswith (s ++ suffix) suffix = true.
Proof. unfold endswith. rewrite rev_app_distr. apply startswith_app. Qed.

(** X5.  Of the suffixes only the first is ever used, and a dial code, when
    there is one, is not empty and begins with the root. *)
Theorem dial_code_shape :
  (forall (root first : pystr) (others : list pystr) (cca2 : pystr),
      format_dial_code root (first :: others) cca2 = format_dial_code root [first] cca2)
  /\ (forall (root : pystr) (suffixes : list pystr) (cca2 dial_code : pystr),
         format_dial_code root suffixes cca2 = Some dial_code ->
         root <> [] /\ dial_code <> [] /\ startswith dial_code root = true).
Proof.
  split.
  - intros root first others cca2. by rewrite !format_dial_code_rule.
  - intros root suffixes cca2 dial_code. rewrite format_dial_code_rule.
    case_bool_decide as Hroot; [done|]. intros [= <-].
    split_and!; [done | by apply dial_code_rule_nonempty |].
    unfold dial_code_rule.
    case_bool_decide as Hone; [destruct Hone as [-> _]; apply startswith_refl|].
    case_bool_decide as Hseven; [destruct Hseven as [-> _]; apply startswith_refl|].
    destruct suffixes; [apply startswith_refl | apply startswith_app].
Qed.

Lemma dial_code_shape_witness :
  str "+1242" <> [] /\ startswith (str "+1242") (str "+1") = true.
Proof.
  refine ((fun H => conj (proj1 (proj2 H)) (proj2 (proj2 H)))
            (proj2 dial_code_shape (str "+1") [str "242"; str "243"] (str "BS")
               (str "+1242") _)).
  by vm_compute.
Defined.

(** X6.  For a code of two ASCII letters, on which [str.upper] and
    [str.isalpha] act as they do on ASCII text, the emoji is the pair of
    regional indicator symbols of the two letters in upper case. *)
Theorem flag_emoji_of_letters (str_upper : pystr -> pystr) (str_isalpha : pystr -> bool)
    (a b : N) :
  is_ascii_letter a = true -> is_ascii_letter b = true ->
  str_upper [a; b] = ascii_upper [a; b] ->
  str_isalpha (ascii_upper [a; b]) = ascii_isalpha (ascii_upper [a; b]) ->
  exists x y,
    ascii_upper [a; b] = [x; y]
    /\ get_flag_emoji str_upper str_isalpha [a; b] = Some [x + OFFSET; y + OFFSET]
    /\ is_regional_indicator (x + OFFSET) /\ is_regional_indicator (y + OFFSET).
Proof.
  intros Ha Hb Hupper Halpha. unfold get_flag_emoji.
  rewrite Hupper, Halpha. unfold ascii_upper, ascii_isalpha, is_ascii_letter in *. simpl.
  unfold is_regional_indicator, OFFSET, MAX_CODE_POINT.
  eexists _, _. split; [reflexivity|].
  destruct (N.leb_spec 97 a), (N.leb_spec a 122), (N.leb_spec 65 a), (N.leb_spec a 90);
    simpl in Ha; try done; try lia;
  destruct (N.leb_spec 97 b), (N.leb_spec b 122), (N.leb_spec 65 b), (N.leb_spec b 90);
    simpl in Hb; try done; try lia; simpl.
  all: repeat match goal with
         | |- context [?x <=? ?y] => destruct (N.leb_spec x y); try lia
         end; simpl; split_and!; try done; lia.
Qed.

Lemma flag_emoji_of_letters_witness :
  exists x y,
    ascii_upper (str "us") = [x; y]
    /\ get_flag_emoji ascii_upper ascii_isalpha (str "us") = Some [x + OFFSET; y + OFFSET]
    /\ is_regional_indicator (x + OFFSET) /\ is_regional_indicator (y + OFFSET).
Proof.
  apply (flag_emoji_of_letters ascii_upper ascii_isalpha 117 115); reflexivity.
Defined.

(** X7.  An emoji is only ever derived from a code of exactly two
    characters whose upper-case form is alphabetic, and it is two code
    points, each above the offset and a valid code point. *)
Theorem flag_emoji_edges (str_upper : pystr -> pystr) (str_isalpha : pystr -> bool)
    (country_code : pystr) :
  (length country_code <> 2%nat ->
   get_flag_emoji str_upper str_isalpha country_code = None)
  /\ (str_isalpha (str_upper country_code) = false ->
      get_flag_emoji str_upper str_isalpha country_code = None)
  /\ (forall flag,
         get_flag_emoji str_upper str_isalpha country_code = Some flag ->
         length country_code = 2%nat
         /\ str_isalpha (str_upper country_code) = true
         /\ length flag = 2%nat
         /\ Forall (fun c => OFFSET <= c <= MAX_CODE_POINT) flag).
Proof.
  unfold get_flag_emoji. split_and!.
  - intros Hlen. destruct (bool_decide (country_code = [])); [done|]. simpl.
    by apply Nat.eqb_neq in Hlen as ->.
  - intros ->. by destruct (_ || _).
  - intros flag. destruct (bool_decide (country_code = [])); [done|]. simpl.
    destruct (Nat.eqb_spec (length country_code) 2) as [Hlen|]; [|done]. simpl.
    destruct (str_isalpha (str_upper country_code)); [|done]. simpl.
    destruct (str_upper country_code) as [|c0 [|c1 rest]]; try done.
    destruct (N.leb_spec (c0 + OFFSET) MAX_CODE_POINT); [|done].
    destruct (N.leb_spec (c1 + OFFSET) MAX_CODE_POINT); [|done]. simpl.
    intros [= <-]. split_and!; try done.
    repeat constructor; lia.
Qed.

Lemma flag_emoji_edges_witness :
  get_flag_emoji ascii_upper ascii_isalpha (str "A") = None
  /\ get_flag_emoji ascii_upper ascii_isalpha (str "001") = None
  /\ get_flag_emoji ascii_upper ascii_isalpha (str "42") = None.
Proof.
  split_and!.
  - apply (proj1 (flag_emoji_edges ascii_upper ascii_isalpha (str "A"))). discriminate.
  - apply (proj1 (flag_emoji_edges ascii_upper ascii_isalpha (str "001"))). discriminate.
  - apply (proj1 (proj2 (flag_emoji_edges ascii_upper ascii_isalpha (str "42")))).
    reflexivity.
Defined.

Lemma flag_uri_nonempty (resource_prefix filename : pystr) :
  flag_uri resource_prefix filename <> [].
Proof. intros H. apply app_eq_nil in H as [H _]. by vm_compute in H. Qed.

Lemma flag_uri_inj (resource_prefix : pystr) : Inj (=) (=) (flag_uri resource_prefix).
Proof. intros f1 f2 H. unfold flag_uri in H. by do 3 apply app_inv_head in H. Qed.

Lemma sorted_filter {A : Type} (key : A -> pystr) (f : A -> bool) (l : list A) :
  Sorted (key_le key) l -> Sorted (key_le key) (List.filter f l).
Proof.
  intros Hsorted. apply StronglySorted_Sorted.
  assert (Transitive (key_le key)) as Htrans.
  { intros x y z. apply str_le_trans. }
  apply Sorted_StronglySorted in Hsorted; [|done].
  induction Hsorted as [|x l Hl IH Hx]; simpl; [constructor|].
  destruct (f x); [|done]. constructor; [done|].
  apply Forall_forall. intros y Hy. apply list_elem_of_In, filter_In in Hy as [Hy _].
  rewrite Forall_forall in Hx. by apply Hx, list_elem_of_In.
Qed.

Section Flags.
Variable str_lower : pystr -> pystr.
Variable str_upper : pystr -> pystr.
Variable str_isalpha : pystr -> bool.
Variable resource_prefix : pystr.

Let step := process_country str_lower str_upper str_isalpha resource_prefix.

(** What one iteration does to the lists. *)
Lemma process_country_cases (st : loop_state) (c : country) :
  step st c = st
  \/ exists it,
       processed_list (step st c) = processed_list st ++ [it]
       /\ ((flag_path it = [] /\ downloaded_svgs (step st c) = downloaded_svgs st)
           \/ (flag_path it = flag_uri resource_prefix (str_lower (cca2 c) ++ str ".svg")
               /\ downloaded_svgs (step st c)
                  = downloaded_svgs st ++ [str_lower (cca2 c) ++ str ".svg"]
               /\ idd_root c <> []
               /\ endswith (flags_svg c) (str ".svg") = true)).
Proof.
  unfold step, process_country.
  rewrite format_dial_code_rule. case_bool_decide as Hroot; [by left|].
  destruct (dial_code_rule _ _ _) as [|d ds]; [by left|]. right.
  unfold download_svg.
  destruct (bool_decide (flags_svg c = []) || negb (endswith (flags_svg c) (str ".svg")))
    eqn:Hurl.
  { eexists. split; [reflexivity|]. by left. }
  apply orb_false_iff in Hurl as [_ Hsvg]. apply negb_false_iff in Hsvg.
  destruct (network st) as [|[|] net'].
  - eexists. split; [reflexivity|]. by left.
  - eexists. split; [reflexivity|]. right. by split_and!.
  - eexists. split; [reflexivity|]. by left.
Qed.

Lemma filter_has_flag_snoc (items : list item) (it : item) :
  List.filter has_flag (items ++ [it])
  = List.filter has_flag items ++ (if has_flag it then [it] else []).
Proof. rewrite List.filter_app. cbn [List.filter]. by destruct (has_flag it). Qed.

Lemma process_country_flags (data : list country) (st : loop_state) (c : country) :
  c ∈ data ->
  flags_in_step str_lower resource_prefix data st ->
  flags_in_step str_lower resource_prefix data (step st c).
Proof.
  intros Hc [Hpaths Hfiles].
  destruct (process_country_cases st c)
    as [->|(it & Hitems & [[Hnone Hdown]|(Hpath & Hdown & Hroot & Hsvg)])]; [done|..];
    unfold flags_in_step; rewrite Hitems, Hdown, filter_has_flag_snoc.
  - assert (has_flag it = false) as ->.
    { unfold has_flag. by rewrite Hnone, bool_decide_eq_true_2. }
    by rewrite app_nil_r.
  - assert (has_flag it = true) as ->.
    { unfold has_flag. rewrite Hpath, bool_decide_eq_false_2; [done|].
      apply flag_uri_nonempty. }
    rewrite !map_app, Hpaths. cbn [List.map]. rewrite Hpath. split; [done|].
    apply Forall_app. split; [done|]. constructor; [|constructor]. by exists c.
Qed.

Lemma loop_flags (data todo : list country) (st : loop_state) :
  (forall c, c ∈ todo -> c ∈ data) ->
  flags_in_step str_lower resource_prefix data st ->
  flags_in_step str_lower resource_prefix data (fold_left step todo st).
Proof.
  revert st. induction todo as [|c todo IH]; intros st Hsub Hst; [done|].
  cbn [fold_left]. apply IH.
  - intros c' Hc'. apply Hsub. by right.
  - apply process_country_flags; [|done]. apply Hsub. by left.
Qed.

Lemma process_countries_flags (data : list country) (net : list bool) :
  flags_in_step str_lower resource_prefix data
    (process_countries str_lower str_upper str_isalpha resource_prefix data net).
Proof.
  unfold process_countries. apply loop_flags.
  - intros c Hc. by rewrite sorted_by_perm in Hc.
  - split; [done|constructor].
Qed.
End Flags.

(** X8.  In the record list and the lists of the loop, the items that carry
    a flag path are, in order, the downloaded files, each path being the
    resource URI of its file; every downloaded file is named after the
    lower-cased code of a record that has a dialing root and an address
    ending in [.svg], so every file name ends in [.svg]. *)
Theorem flags_match_downloads (str_lower str_upper : pystr -> pystr)
    (str_isalpha : pystr -> bool) (resource_prefix : pystr)
    (data : list country) (net : list bool) :
  let st := process_countries str_lower str_upper str_isalpha resource_prefix data net in
  List.map flag_path (List.filter has_flag (processed_list st))
  = List.map (flag_uri resource_prefix) (downloaded_svgs st)
  /\ (forall f, f ∈ downloaded_svgs st ->
        endswith f (str ".svg") = true
        /\ exists c, c ∈ data /\ f = str_lower (cca2 c) ++ str ".svg"
                     /\ idd_root c <> []
                     /\ endswith (flags_svg c) (str ".svg") = true).
Proof.
  intros st.
  destruct (process_countries_flags str_lower str_upper str_isalpha resource_prefix data net)
    as [Hpaths Hfiles].
  split; [exact Hpaths|].
  intros f Hf. rewrite Forall_forall in Hfiles.
  destruct (Hfiles f Hf) as (c & Hc & -> & Hroot & Hsvg).
  split; [apply endswith_app|]. by exists c.
Qed.

Lemma flags_match_downloads_witness :
  endswith (str "bs.svg") (str ".svg") = true.
Proof.
  refine (proj1 (proj2 (flags_match_downloads ascii_lower (fun s => s) (fun _ => true)
                          default_prefix sample_records [true; true]) (str "bs.svg") _)).
  vm_compute. by left.
Defined.

(** X9.  When every upstream record has a name, the written record list is
    in ascending order of the names (code point order). *)
Theorem written_list_sorted_by_name
    (str_lower str_upper : pystr -> pystr) (str_isalpha : pystr -> bool)
    (re_search_prefix : pystr -> option pystr)
    (data : list country) (net : list bool) (fs : files) :
  data <> [] ->
  Forall (fun c => name_common c <> None) data ->
  exists items,
    json_file (Countries.main str_lower str_upper str_isalpha re_search_prefix
                 (Some data) net fs) = Some items
    /\ Sorted (fun a b => str_le a b = true) (List.map name items).
Proof.
  intros Hdata Hnames. destruct data as [|c0 rest]; [done|].
  eexists. split; [reflexivity|]. simpl json_file.
  set (key := fun x : country => default [] (name_common x)).
  set (data := c0 :: rest) in *.
  assert (List.map name
            (processed_list
               (process_countries str_lower str_upper str_isalpha
                  (get_gresource_prefix re_search_prefix (xml_file fs)) data net))
          = List.map key (List.filter has_root (sorted_by key data))) as ->.
  { pose proof (loop_identity str_lower str_upper str_isalpha
                  (get_gresource_prefix re_search_prefix (xml_file fs))
                  (sorted_by key data)
                  {| processed_list := []; downloaded_svgs := []; network := net |})
      as Hid.
    simpl in Hid. apply (f_equal (List.map (fun t => t.1.1))) in Hid.
    rewrite !List.map_map in Hid. unfold process_countries. fold key.
    etrans; [exact Hid|]. apply map_ext_in. intros c Hc. simpl.
    apply filter_In in Hc as [Hc _]. apply list_elem_of_In in Hc.
    rewrite sorted_by_perm in Hc. rewrite Forall_forall in Hnames.
    specialize (Hnames c Hc). unfold key. by destruct (name_common c). }
  apply (Sorted_fmap key (key_le key)); [done|].
  apply sorted_filter, sorted_by_sorted.
Qed.

Lemma written_list_sorted_by_name_witness :
  exists items,
    json_file (Countries.main ascii_lower ascii_upper ascii_isalpha (fun _ => None)
                 (Some named_records) [true; true] stale_files) = Some items
    /\ Sorted (fun a b => str_le a b = true) (List.map name items)
    /\ List.map name_common named_records
       = [Some (str "France"); Some (str "Canada"); Some (str "Bahamas")]
    /\ List.map name items = [str "Bahamas"; str "Canada"; str "France"].
Proof.
  destruct (written_list_sorted_by_name ascii_lower ascii_upper ascii_isalpha
              (fun _ => None) named_records [true; true] stale_files)
    as (items & Hjson & Hsorted).
  - discriminate.
  - repeat constructor; discriminate.
  - exists items. split_and!; [exact Hjson|exact Hsorted|reflexivity|].
    vm_compute in Hjson. injection Hjson as <-. by vm_compute.
Defined.





End PipelineBehaviour.

(** ** The resource prefix *)

Module PrefixBehaviour.
Import Countries Design Behaviour PyStrFacts.

Lemma span_spec (p : N -> bool) (s taken rest : pystr) :
  span p s = (taken, rest) ->
  s = taken ++ rest /\ Forall (fun c => p c = true) taken
  /\ match rest with c :: _ => p c = false | [] => True end.
Proof.
  revert taken rest. induction s as [|c s IH]; intros taken rest; cbn [span].
  - by intros [= <- <-].
  - destruct (p c) eqn:Hc.
    + destruct (span p s) as [taken' rest'] eqn:Hspan. intros [= <- <-].
      destruct (IH _ _ eq_refl) as (-> & Htaken & Hrest).
      split_and!; [done| by constructor | done].
    + by intros [= <- <-].
Qed.

Lemma span_app (p : N -> bool) (taken rest : pystr) :
  Forall (fun c => p c = true) taken ->
  match rest with c :: _ => p c = false | [] => True end ->
  span p (taken ++ rest) = (taken, rest).
Proof.
  intros Htaken Hrest. induction Htaken as [|c taken Hc _ IH]; cbn [app span].
  - destruct rest as [|c rest]; [done|]. cbn [span]. by rewrite Hrest.
  - by rewrite Hc, IH.
Qed.

Lemma prefix_attribute_head : exists rest, prefix_attribute = 112 :: rest.
Proof. by eexists; vm_compute. Qed.

Lemma not_quote_true (c : N) : not_quote c = true <-> c <> QUOTE.
Proof.
  unfold not_quote. rewrite negb_true_iff. by destruct (N.eqb_spec c QUOTE).
Qed.

(** The match at the start of a string finds the prefix attribute that
    stands there, and nothing else. *)
Lemma match_prefix_spec (s value : pystr) :
  match_prefix s = Some value <-> prefix_at s [] value.
Proof.
  unfold match_prefix, prefix_at. split.
  - destruct (startswith s gresource_tag) eqn:Htag; [|done].
    apply startswith_spec in Htag as [r ->]. rewrite drop_app_length.
    destruct (span isspace r) as [[|w ws] after_space] eqn:Hspace; [done|].
    apply span_spec in Hspace as (-> & Hws & _).
    destruct (startswith after_space prefix_attribute) eqn:Hattr; [|done].
    apply startswith_spec in Hattr as [r2 ->]. rewrite drop_app_length.
    destruct (span not_quote r2) as [[|v vs] [|q post]] eqn:Hvalue; try done.
    apply span_spec in Hvalue as (-> & Hv & Hq).
    intros [= <-]. exists (w :: ws), post.
    apply negb_false_iff, N.eqb_eq in Hq as ->.
    split_and!; try done.
    eapply Forall_impl; [exact Hv|]. intros c. apply not_quote_true.
  - intros (space & post & -> & Hspace & Hws & Hvalue & Hv). cbn [app].
    rewrite startswith_app, drop_app_length.
    destruct prefix_attribute_head as [attr Hattr].
    rewrite (span_app isspace space) by (by rewrite ?Hattr).
    destruct space as [|w ws]; [done|].
    rewrite startswith_app, drop_app_length.
    rewrite (span_app not_quote value (QUOTE :: post)).
    + by destruct value.
    + eapply Forall_impl; [exact Hv|]. intros c. apply not_quote_true.
    + done.
Qed.

Lemma search_prefix_unfold (content : pystr) :
  search_prefix content
  = match match_prefix content with
    | Some value => Some value
    | None =>
      match content with
      | [] => None
      | _ :: rest => search_prefix rest
      end
    end.
Proof. by destruct content. Qed.

Lemma prefix_at_cons (c : N) (content pre value : pystr) :
  prefix_at (c :: content) (c :: pre) value <-> prefix_at content pre value.
Proof.
  unfold prefix_at. split; intros (space & post & Heq & H); exists space, post;
    (split; [|done]).
  - by injection Heq.
  - by rewrite Heq.
Qed.

Lemma prefix_at_inv (content pre value : pystr) :
  prefix_at content pre value ->
  match pre with
  | [] => match_prefix content = Some value
  | c :: pre' => exists rest, content = c :: rest /\ prefix_at rest pre' value
  end.
Proof.
  destruct pre as [|c pre']; [by apply match_prefix_spec|].
  intros (space & post & -> & H). eexists. split; [reflexivity|].
  by exists space, post.
Qed.

(** Wherever the attribute stands, the search finds some attribute. *)
Lemma search_prefix_complete (content pre value : pystr) :
  prefix_at content pre value -> exists found, search_prefix content = Some found.
Proof.
  revert content. induction pre as [|c pre IH]; intros content Hat;
    apply prefix_at_inv in Hat; rewrite search_prefix_unfold.
  - rewrite Hat. by eexists.
  - destruct Hat as (rest & -> & Hat).
    destruct (match_prefix (c :: rest)); [by eexists|]. by apply IH.
Qed.

(** The search returns the value of the first prefix attribute. *)
Lemma search_prefix_spec (content value : pystr) :
  search_prefix content = Some value <-> first_prefix content value.
Proof.
  unfold first_prefix. split.
  - revert value. induction content as [|c content IH]; intros value;
      rewrite search_prefix_unfold.
    + destruct (match_prefix []) eqn:Hmatch; [|done]. intros [= ->].
      exists []. split; [by apply match_prefix_spec|]. intros; simpl; lia.
    + destruct (match_prefix (c :: content)) eqn:Hmatch.
      * intros [= ->]. exists []. split; [by apply match_prefix_spec|].
        intros; simpl; lia.
      * intros Hsearch. destruct (IH _ Hsearch) as (pre & Hat & Hmin).
        exists (c :: pre). split; [by apply prefix_at_cons|].
        intros pre' value' Hat'. apply prefix_at_inv in Hat'.
        destruct pre' as [|c' pre']; [congruence|].
        destruct Hat' as (rest & [= <- <-] & Hat').
        simpl. apply le_n_S. by eapply Hmin.
  - intros (pre & Hat & Hmin). revert content Hat Hmin.
    induction pre as [|c pre IH]; intros content Hat Hmin;
      pose proof (prefix_at_inv _ _ _ Hat) as Hinv; rewrite search_prefix_unfold.
    + by rewrite Hinv.
    + destruct Hinv as (rest & -> & Hrest).
      destruct (match_prefix (c :: rest)) eqn:Hmatch.
      * apply match_prefix_spec in Hmatch. apply Hmin in Hmatch. simpl in Hmatch. lia.
      * apply IH; [done|]. intros pre' value' Hat'.
        apply (prefix_at_cons c) in Hat'. apply Hmin in Hat'. simpl in Hat'. lia.
Qed.

(** X11.  The resource prefix is the value of the first prefix attribute of
    an opening [gresource] tag in the manifest; without the file, or without
    such an attribute in it, it is the default prefix. *)
Theorem prefix_is_first_attribute :
  (forall (lines : list pystr) (value : pystr),
      first_prefix (concat lines) value ->
      get_gresource_prefix search_prefix (Some lines) = value)
  /\ (forall lines : list pystr,
         (forall pre value, ~ prefix_at (concat lines) pre value) ->
         get_gresource_prefix search_prefix (Some lines) = default_prefix)
  /\ get_gresource_prefix search_prefix None = default_prefix.
Proof.
  split_and!; [| |done].
  - intros lines value Hfirst. apply search_prefix_spec in Hfirst.
    unfold get_gresource_prefix. by rewrite Hfirst.
  - intros lines Hnone. unfold get_gresource_prefix.
    destruct (search_prefix (concat lines)) as [value|] eqn:Hsearch; [|done].
    apply search_prefix_spec in Hsearch as (pre & Hat & _). by destruct (Hnone pre value).
Qed.

Lemma prefix_is_first_attribute_witness :
  get_gresource_prefix search_prefix (Some two_section_manifest) = str "/a"
  /\ get_gresource_prefix search_prefix (Some unclosed_manifest) = default_prefix.
Proof.
  split.
  - apply (proj1 prefix_is_first_attribute). apply search_prefix_spec. by vm_compute.
  - apply (proj1 (proj2 prefix_is_first_attribute)). intros pre value Hat.
    destruct (search_prefix_complete _ _ _ Hat) as [found Hfound].
    by vm_compute in Hfound.
Defined.

(** X12.  The resource prefix is never empty and never holds a double
    quote, and when it is taken from the manifest the manifest holds it
    between the quotes of a prefix attribute. *)
Theorem prefix_is_well_formed (xml : manifest) :
  let resource_prefix := get_gresource_prefix search_prefix xml in
  resource_prefix <> []
  /\ Forall (fun c => c <> QUOTE) resource_prefix
  /\ (resource_prefix = default_prefix
      \/ exists lines pre, xml = Some lines /\ prefix_at (concat lines) pre resource_prefix).
Proof.
  assert (default_prefix <> [] /\ Forall (fun c => c <> QUOTE) default_prefix) as [Hd1 Hd2].
  { split; [done|]. apply (bool_decide_unpack _). by vm_compute. }
  unfold get_gresource_prefix. destruct xml as [lines|]; [|by split_and!; [..|left]].
  destruct (search_prefix (concat lines)) as [value|] eqn:Hsearch;
    [|by split_and!; [..|left]].
  apply search_prefix_spec in Hsearch as (pre & Hat & _).
  pose proof Hat as (space & post & _ & _ & _ & Hvalue & Hquote).
  split_and!; [done..|]. right. by exists lines, pre.
Qed.

End PrefixBehaviour.

(** ** More on string extraction *)

Module HarvestBehaviour.
Import Extract Design Behaviour PyStrFacts Harvest Template.

Lemma unescape_escaped (s : pystr) : unescape (escaped s) = s.
Proof.
  unfold escaped. induction s as [|c s IH]; [done|]. cbn [flat_map].
  destruct (N.eqb_spec c BACKSLASH) as [->|Hb]; cbn [orb app unescape].
  - rewrite N.eqb_refl. by rewrite IH.
  - destruct (N.eqb_spec c QUOTE) as [->|Hq]; cbn [app unescape].
    + rewrite N.eqb_refl. by rewrite IH.
    + apply N.eqb_neq in Hb. rewrite Hb. by rewrite IH.
Qed.

Lemma escaped_length (s : pystr) :
  length (escaped s) = (length s + special_count s)%nat.
Proof.
  unfold escaped, special_count. induction s as [|c s IH]; [done|].
  cbn [flat_map List.filter]. rewrite length_app, IH.
  destruct ((c =? BACKSLASH) || (c =? QUOTE)); simpl; lia.
Qed.

(** X13.  Escaping loses nothing: reading the backslashes of an escaped
    string back gives the string, so different strings have different
    message identifiers; the escaped string is longer by one character for
    each backslash and double quote, and a string without either is left as
    it is. *)
Theorem escape_string_faithful :
  (forall s, unescape (escape_string s) = s)
  /\ (forall s1 s2, escape_string s1 = escape_string s2 -> s1 = s2)
  /\ (forall s, length (escape_string s) = (length s + special_count s)%nat)
  /\ (forall s, special_count s = 0%nat -> escape_string s = s).
Proof.
  assert (forall s, unescape (escape_string s) = s) as Hback.
  { intros s. rewrite escape_string_escaped. apply unescape_escaped. }
  split_and!.
  - exact Hback.
  - intros s1 s2 Heq. by rewrite <- (Hback s1), Heq.
  - intros s. rewrite escape_string_escaped. apply escaped_length.
  - intros s. rewrite escape_string_escaped. unfold special_count, escaped.
    induction s as [|c s IH]; [done|]. cbn [List.filter flat_map].
    destruct ((c =? BACKSLASH) || (c =? QUOTE)); [done|].
    intros Hs. cbn [app]. by rewrite IH.
Qed.

Lemma escape_string_faithful_witness :
  escape_string (str "Coffee") = str "Coffee"
  /\ (escape_string [QUOTE] = escape_string [BACKSLASH] -> [QUOTE] = [BACKSLASH]).
Proof.
  split.
  - apply (proj2 (proj2 (proj2 escape_string_faithful))). reflexivity.
  - apply (proj1 (proj2 escape_string_faithful)).
Defined.

(** X14.  Extraction only adds: the result is the set given joined with
    what the value yields on its own.  So the order in which two values are
    processed does not matter, and processing a value again adds nothing. *)
Theorem extraction_accumulates (keys : gset pystr) :
  (forall (v : json) (string_set : gset pystr),
      extract_strings_recursive keys v string_set
      = string_set ∪ extract_strings_recursive keys v ∅)
  /\ (forall (v w : json) (string_set : gset pystr),
         extract_strings_recursive keys w (extract_strings_recursive keys v string_set)
         = extract_strings_recursive keys v (extract_strings_recursive keys w string_set))
  /\ (forall (v : json) (string_set : gset pystr),
         extract_strings_recursive keys v (extract_strings_recursive keys v string_set)
         = extract_strings_recursive keys v string_set).
Proof.
  split_and!.
  - intros v X. apply set_eq. intros s.
    rewrite elem_of_union, !elem_of_extract, elem_of_empty. tauto.
  - intros v w X. apply set_eq. intros s. rewrite !elem_of_extract. tauto.
  - intros v X. apply set_eq. intros s. rewrite !elem_of_extract. tauto.
Qed.

Lemma last_rev (s : pystr) : last (rev s) = head s.
Proof. destruct s as [|c s]; [done|]. simpl. apply last_snoc. Qed.

Lemma rstrip_split (s : pystr) :
  exists trail, s = rstrip s ++ trail /\ Forall (fun c => isspace c = true) trail.
Proof.
  destruct (lstrip_split (rev s)) as (lead & Hrev & Hlead & _).
  exists (rev lead). split.
  - unfold rstrip. rewrite <- rev_app_distr, <- Hrev. by rewrite rev_involutive.
  - apply Forall_forall. intros c Hc. rewrite Forall_forall in Hlead.
    apply Hlead. by apply list_elem_of_In, in_rev, list_elem_of_In.
Qed.

Lemma lstrip_id (s : pystr) :
  match s with c :: _ => isspace c = false | [] => True end -> lstrip s = s.
Proof. destruct s as [|c s]; [done|]. simpl. by intros ->. Qed.

(** What [strip] returns, if not empty, is trimmed, and [strip] leaves it
    alone. *)
Lemma strip_trimmed (text : pystr) :
  strip text <> [] -> trimmed (strip text) /\ strip (strip text) = strip text.
Proof.
  unfold strip. intros Hne.
  pose proof (lstrip_head text) as Hhead.
  destruct (rstrip_split (lstrip text)) as (trail & Hsplit & Htrail).
  set (u := lstrip text) in *.
  assert (match rstrip u with c :: _ => isspace c = false | [] => True end) as Hfirst.
  { destruct (rstrip u) as [|c r] eqn:Hr; [done|]. rewrite Hsplit in Hhead. exact Hhead. }
  assert (match last (rstrip u) with Some c => isspace c = false | None => True end)
    as Hlast.
  { unfold rstrip. rewrite last_rev.
    pose proof (lstrip_head (rev u)) as H. by destruct (lstrip (rev u)). }
  split.
  - unfold trimmed. destruct (rstrip u) as [|c r] eqn:Hr; [done|].
    cbn [head]. destruct (last (c :: r)) as [z|] eqn:Hz; [done|].
    by apply last_None in Hz.
  - rewrite (lstrip_id (rstrip u)) by done.
    unfold rstrip at 1. rewrite (lstrip_id (rev (rstrip u))).
    + apply rev_involutive.
    + destruct (rev (rstrip u)) as [|z r] eqn:Hrev; [done|].
      rewrite <- (rev_involutive (rstrip u)), Hrev in Hlast.
      by rewrite last_rev in Hlast.
Qed.

(** X15.  Every string the extractor adds is trimmed: it is not empty, its
    first and last characters are not whitespace, and trimming it again
    changes nothing. *)
Theorem extracted_strings_are_trimmed (keys : gset pystr) (v : json)
    (string_set : gset pystr) (s : pystr) :
  s ∈ extract_strings_recursive keys v string_set ->
  s ∈ string_set \/ (trimmed s /\ strip s = s /\ s <> []).
Proof.
  rewrite elem_of_extract. intros [?|Hs]; [by left|right].
  destruct (harvested_trimmed _ _ _ Hs) as (Hne & text & ->).
  destruct (strip_trimmed text Hne). by split_and!.
Qed.

Lemma extracted_strings_are_trimmed_witness :
  str "Coffee" ∈ (∅ : gset pystr)
  \/ (trimmed (str "Coffee") /\ strip (str "Coffee") = str "Coffee" /\ str "Coffee" <> []).
Proof.
  apply (extracted_strings_are_trimmed TRANSLATABLE_KEYS
           (JDict [(str "name", JStr (str "  Coffee "))]) ∅).
  apply (bool_decide_unpack _). by vm_compute.
Defined.

Lemma new_string_count_sizes (keys : gset pystr) (content : option json)
    (string_set : gset pystr) :
  size (process_json_file keys content string_set).2
  = (size string_set + (process_json_file keys content string_set).1)%nat.
Proof.
  unfold process_json_file. destruct content as [data|]; cbn [fst snd]; [|lia].
  assert (string_set ⊆ extract_strings_recursive keys (unwrap_data data) string_set)
    as Hsub.
  { intros s Hs. apply elem_of_extract. by left. }
  pose proof (subseteq_size _ _ Hsub). lia.
Qed.

(** X16.  The count a file reports is the number of strings it added: the
    set only grows, and its size grows by the count.  A file that cannot be
    read or parsed reports 0 and leaves the set as it is. *)
Theorem new_string_count (keys : gset pystr) (content : option json)
    (string_set : gset pystr) :
  let result := process_json_file keys content string_set in
  string_set ⊆ result.2
  /\ result.1 = size (result.2 ∖ string_set)
  /\ size result.2 = (size string_set + result.1)%nat
  /\ (content = None -> result = (0%nat, string_set)).
Proof.
  unfold process_json_file. destruct content as [data|]; cbn [fst snd].
  - set (X' := extract_strings_recursive keys (unwrap_data data) string_set).
    assert (string_set ⊆ X') as Hsub.
    { intros s Hs. apply elem_of_extract. by left. }
    pose proof (subseteq_size _ _ Hsub).
    split_and!; [done| by rewrite size_difference | lia | done].
  - split_and!; [done| |lia|done].
    replace (string_set ∖ string_set) with (∅ : gset pystr) by set_solver.
    by rewrite size_empty.
Qed.

Lemma new_string_count_witness :
  process_json_file TRANSLATABLE_KEYS None {[ str "Coffee" ]} = (0%nat, {[ str "Coffee" ]}).
Proof.
  by apply (proj2 (proj2 (proj2
              (new_string_count TRANSLATABLE_KEYS None {[ str "Coffee" ]})))).
Defined.

End HarvestBehaviour.

(** ** More on the template driver *)

Module TemplateBehaviour.
Import Extract Design Behaviour PyStrFacts Harvest Template.

Lemma skip_listed_spec (globbed : list (pystr * option json)) (log : list event) :
  skip_listed globbed log
  = (Done (List.filter (fun e => negb (skipped e)) globbed),
     log ++ List.map skip_event (List.filter skipped globbed)).
Proof.
  revert log. induction globbed as [|e rest IH]; intros log.
  - cbn. by rewrite app_nil_r.
  - rewrite skip_listed_cons. cbn [List.filter].
    change (bool_decide (e.1 ∈ SKIP_FILES)) with (skipped e).
    destruct (skipped e); cbn [negb];
      unfold mbind, script_bind, print, emit; rewrite IH.
    + cbn [List.map]. unfold skip_event at 2. by rewrite <- app_assoc.
    + done.
Qed.

Lemma listing_spec (files : list (pystr * option json)) (log : list event) :
  fold_right (fun f k => print (str "  - " ++ f.1);; k) (mret tt) files log
  = (Done tt, log ++ List.map (fun name => Print (str "  - " ++ name)) (List.map fst files)).
Proof.
  revert log. induction files as [|f files IH]; intros log; cbn [fold_right List.map].
  - cbn. by rewrite app_nil_r.
  - unfold mbind at 1, script_bind at 1, print, emit. rewrite IH.
    by rewrite <- app_assoc.
Qed.

Lemma process_all_spec (failure_of : pystr -> load_failure)
    (files : list (pystr * option json)) (string_set : gset pystr) (log : list event) :
  process_all failure_of files string_set log
  = (Done (collect files string_set),
     log ++ file_events failure_of files (new_counts files string_set)).
Proof.
  revert string_set log. induction files as [|[name content] files IH];
    intros string_set log.
  - cbn. by rewrite app_nil_r.
  - cbn [process_all collect fold_left new_counts file_events fst snd].
    destruct (process_json_file TRANSLATABLE_KEYS content string_set)
      as [count X'] eqn:Hp.
    destruct content as [data|];
      unfold mbind, script_bind, print, emit, mret, script_ret; rewrite IH;
      cbn [fst snd app]; unfold collect, count_line; rewrite <- !app_assoc; done.
Qed.

Lemma new_counts_length (files : list (pystr * option json)) (string_set : gset pystr) :
  length (new_counts files string_set) = length files.
Proof.
  revert string_set. induction files as [|f files IH]; intros X; [done|].
  cbn [new_counts length]. by rewrite IH.
Qed.

Lemma effects_app (l1 l2 : list event) : effects (l1 ++ l2) = effects l1 ++ effects l2.
Proof. apply List.filter_app. Qed.

Lemma effects_prints (l : list event) :
  Forall (fun e => is_print e = true) l -> effects l = [].
Proof.
  unfold effects. induction 1 as [|e l He _ IH]; [done|].
  cbn [List.filter]. by rewrite He.
Qed.

Lemma skip_events_prints (entries : list (pystr * option json)) :
  Forall (fun e => is_print e = true) (skip_events entries).
Proof. unfold skip_events. by apply Forall_forall; intros e [x [-> _]]%list_elem_of_fmap. Qed.

Lemma effects_file_events (failure_of : pystr -> load_failure)
    (files : list (pystr * option json)) (counts : list nat) :
  length counts = length files ->
  effects (file_events failure_of files counts) = List.map Open (List.map fst files).
Proof.
  revert counts. induction files as [|[name content] files IH]; intros [|count counts] Hlen;
    try done.
  cbn [file_events List.map fst snd]. unfold effects in *.
  cbn [List.filter is_print negb]. rewrite List.filter_app.
  cbn [List.filter is_print negb]. rewrite IH by (by injection Hlen).
  by destruct content.
Qed.

Lemma effects_processing_log (path_str : pystr -> pystr) (failure_of : pystr -> load_failure)
    (input_dir : pystr) (entries : list (pystr * option json)) :
  effects (processing_log path_str failure_of input_dir entries)
  = List.map Open (List.map fst (eligible entries)).
Proof.
  unfold processing_log. rewrite !effects_app.
  rewrite (effects_prints (skip_events entries)) by apply skip_events_prints.
  rewrite (effects_prints (List.map _ _)).
  2:{ apply Forall_forall. by intros e [x [-> _]]%list_elem_of_fmap. }
  rewrite effects_file_events by apply new_counts_length.
  cbn. by rewrite app_nil_r.
Qed.

(** The writes of [generate_pot_file], put together, are its text. *)
Lemma pot_writes_concat (creation_date : pystr) (strings : gset pystr)
    (source_files : list pystr) :
  concat (pot_writes creation_date strings source_files)
  = (generate_pot_file creation_date strings source_files).1.
Proof.
  unfold pot_writes, generate_pot_file. cbn [fst concat]. f_equal.
  induction (sorted (elements (strings ∖ {[ [] ]}))) as [|s l IH]; [done|].
  change (flat_map ?f (s :: l)) with (f s ++ flat_map f l).
  change (List.map ?f (s :: l)) with (f s :: List.map f l).
  rewrite concat_app, IH. unfold message_block.
  cbn [concat]. by rewrite app_nil_r, <- !app_assoc.
Qed.

Lemma utf8_encodable_app (a b : pystr) :
  utf8_encodable (a ++ b) = utf8_encodable a && utf8_encodable b.
Proof. apply forallb_app. Qed.

(** What is written is an encodable start of the text; it is all of it
    exactly when the text can be encoded. *)
Lemma write_chunks_spec (chunks : list pystr) :
  utf8_encodable (write_chunks chunks).1 = true
  /\ (write_chunks chunks).2 = utf8_encodable (concat chunks)
  /\ exists rest,
       concat chunks = (write_chunks chunks).1 ++ rest
       /\ ((write_chunks chunks).2 = true -> rest = [])
       /\ ((write_chunks chunks).2 = false -> rest <> []).
Proof.
  induction chunks as [|chunk chunks (Hw & Hc & rest & Hrest & Hdone & Hpart)].
  - cbn. split_and!; [done..|]. by exists [].
  - cbn [write_chunks concat]. rewrite utf8_encodable_app.
    destruct (utf8_encodable chunk) eqn:Hchunk.
    + destruct (write_chunks chunks) as [written complete]. cbn [fst snd] in *.
      split_and!.
      * by rewrite utf8_encodable_app, Hchunk, Hw.
      * done.
      * exists rest. split_and!; [|done..]. by rewrite Hrest, <- app_assoc.
    + cbn [fst snd andb]. split_and!; [done..|].
      exists (chunk ++ concat chunks). split_and!; [done..|].
      intros _ Hnil. apply app_eq_nil in Hnil as [-> _]. done.
Qed.

Lemma bind_unfold {A B : Type} (f : A -> script B) (m : script A) (log : list event) :
  (m ≫= f) log
  = match m log with
    | (Done a, log') => f a log'
    | (Exited code, log') => (Exited code, log')
    end.
Proof. reflexivity. Qed.

Lemma emit_unfold (e : event) (log : list event) : emit e log = (Done tt, log ++ [e]).
Proof. reflexivity. Qed.

Lemma print_unfold (text : pystr) (log : list event) :
  print text log = (Done tt, log ++ [Print text]).
Proof. reflexivity. Qed.

Lemma uncaught_unfold {A : Type} (log : list event) :
  @uncaught A log = (Exited 1%Z, log).
Proof. reflexivity. Qed.

Lemma mret_unfold {A : Type} (a : A) (log : list event) :
  (mret a : script A) log = (Done a, log).
Proof. reflexivity. Qed.

(** One step of a script applied to a log. *)
Ltac step_script :=
  repeat first
    [ rewrite bind_unfold | rewrite print_unfold | rewrite emit_unfold
    | rewrite uncaught_unfold | rewrite mret_unfold
    | rewrite listing_spec | rewrite process_all_spec
    | progress cbv beta iota ].

Section Runs.
Variable fs : pystr -> option node.
Variable creation_date : pystr.
Variable path_str path_parent : pystr -> pystr.
Variable failure_of : pystr -> load_failure.
Variable mkdir_ok open_ok : pystr -> bool.

Lemma run_directory_files (prog output_file input_dir : pystr)
    (entries : list (pystr * option json)) :
  fs input_dir = Some (Directory entries) ->
  eligible entries <> [] ->
  run fs creation_date path_str path_parent failure_of mkdir_ok open_ok
      [prog; output_file; input_dir]
  = let outcome := output_outcome fs creation_date path_str path_parent mkdir_ok open_ok
                     output_file (eligible entries) in
    (outcome.1, processing_log path_str failure_of input_dir entries ++ outcome.2).
Proof.
  intros Hfs Hfiles. unfold run, main. rewrite Hfs.
  step_script. unfold discover_json_files. rewrite skip_listed_spec.
  fold (eligible entries). fold (skip_events entries).
  destruct (eligible entries) as [|f files] eqn:Helig; [done|].
  rewrite <- Helig. step_script.
  unfold output_outcome, can_mkdir, can_open, processing_log, generated_line.
  cbv zeta.
  destruct (is_file (fs (path_parent output_file))), (mkdir_ok (path_parent output_file));
    cbn [orb negb andb fst snd]; step_script;
    try (rewrite ?app_nil_r, <- ?app_assoc; reflexivity).
  destruct (is_directory (fs output_file)), (open_ok output_file);
    cbn [orb negb andb fst snd]; step_script;
    try (rewrite <- ?app_assoc; reflexivity).
  destruct (write_chunks _) as [written [|]]; cbn [fst snd];
    destruct (generate_pot_file _ _ _) as [content total]; cbn [fst snd];
    step_script; rewrite <- ?app_assoc; reflexivity.
Qed.

Lemma run_directory_empty (prog output_file input_dir : pystr)
    (entries : list (pystr * option json)) :
  fs input_dir = Some (Directory entries) ->
  eligible entries = [] ->
  run fs creation_date path_str path_parent failure_of mkdir_ok open_ok
      [prog; output_file; input_dir]
  = (0%Z,
     [Print (str "Scanning directory: " ++ path_str input_dir); Print []]
       ++ skip_events entries ++ [Print (str "No JSON files found to process.")]).
Proof.
  intros Hfs Hfiles. unfold run, main. rewrite Hfs.
  unfold mbind at 1 2 3, script_bind at 1 2 3, print at 1 2, emit at 1 2.
  unfold discover_json_files. rewrite skip_listed_spec.
  fold (eligible entries). fold (skip_events entries). rewrite Hfiles.
  unfold mbind, script_bind, print, emit, sys_exit.
  by rewrite <- !app_assoc.
Qed.

(** The ways a run can go. *)
Lemma run_cases (argv : list pystr) :
  (exists log,
      run fs creation_date path_str path_parent failure_of mkdir_ok open_ok argv = (1%Z, log)
      /\ Forall (fun e => is_print e = true) log
      /\ forall prog output_file input_dir entries,
           argv = [prog; output_file; input_dir] ->
           fs input_dir <> Some (Directory entries))
  \/ exists prog output_file input_dir entries,
       argv = [prog; output_file; input_dir]
       /\ fs input_dir = Some (Directory entries)
       /\ ((eligible entries = []
            /\ exists log,
                 run fs creation_date path_str path_parent failure_of mkdir_ok open_ok argv
                 = (0%Z, log)
                 /\ Forall (fun e => is_print e = true) log)
           \/ (eligible entries <> []
               /\ run fs creation_date path_str path_parent failure_of mkdir_ok open_ok argv
                  = let outcome :=
                      output_outcome fs creation_date path_str path_parent mkdir_ok open_ok
                        output_file (eligible entries) in
                    (outcome.1,
                     processing_log path_str failure_of input_dir entries ++ outcome.2))).
Proof.
  destruct argv as [|prog [|output_file [|input_dir [|extra argv]]]];
    try (left; eexists; split_and!; [reflexivity|by repeat constructor|done]).
  destruct (fs input_dir) as [[|entries]|] eqn:Hfs.
  - left. unfold run, main. rewrite Hfs. eexists. split_and!; [reflexivity| |].
    + by repeat constructor.
    + intros ???? [= _ _ <-]. by rewrite Hfs.
  - right. exists prog, output_file, input_dir, entries. split_and!; [done..|].
    destruct (decide (eligible entries = [])) as [Helig|Helig].
    + left. split; [done|]. eexists. split; [by apply run_directory_empty|].
      repeat (apply Forall_app; split); [by repeat constructor| |by repeat constructor].
      apply skip_events_prints.
    + right. split; [done|]. by apply run_directory_files.
  - left. unfold run, main. rewrite Hfs. eexists. split_and!; [reflexivity| |].
    + by repeat constructor.
    + intros ???? [= _ _ <-]. by rewrite Hfs.
Qed.
End Runs.

Lemma elem_of_eligible (entries : list (pystr * option json)) (e : pystr * option json) :
  e ∈ eligible entries
  <-> e ∈ entries /\ endswith e.1 (str ".json") = true /\ e.1 ∉ SKIP_FILES.
Proof.
  unfold eligible, glob_json, skipped.
  rewrite list_elem_of_In, filter_In, <- list_elem_of_In, sorted_by_perm.
  rewrite list_elem_of_In, filter_In, <- list_elem_of_In.
  rewrite negb_true_iff, bool_decide_eq_false. tauto.
Qed.


(** The strings gathered from the files are those harvested from the files
    that could be read. *)
Lemma elem_of_collect (files : list (pystr * option json)) (string_set : gset pystr)
    (s : pystr) :
  s ∈ collect files string_set
  <-> s ∈ string_set
      \/ exists name data,
           (name, Some data) ∈ files
           /\ harvested TRANSLATABLE_KEYS (unwrap_data data) s.
Proof.
  revert string_set. induction files as [|[name content] files IH]; intros X.
  - cbn. split; [by left|]. intros [?|(n & d & Hin & _)]; [done|].
    by apply elem_of_nil in Hin.
  - unfold collect in *. cbn [fold_left]. rewrite IH.
    unfold process_json_file. destruct content as [data|]; cbn [snd].
    + rewrite elem_of_extract. split.
      * intros [[?|?]|(n & d & Hin & ?)]; [by left|right..].
        -- exists name, data. split; [by left|done].
        -- exists n, d. split; [by right|done].
      * intros [?|(n & d & Hin & ?)]; [by left; left|].
        apply elem_of_cons in Hin as [[= -> ->]|Hin]; [left; by right|].
        right. by exists n, d.
    + split.
      * intros [?|(n & d & Hin & ?)]; [by left|right].
        exists n, d. split; [by right|done].
      * intros [?|(n & d & Hin & ?)]; [by left|right].
        apply elem_of_cons in Hin as [[=]|Hin]. by exists n, d.
Qed.

Lemma collect_size (files : list (pystr * option json)) (string_set : gset pystr) :
  size (collect files string_set)
  = (size string_set + sum_list (new_counts files string_set))%nat.
Proof.
  revert string_set. induction files as [|f files IH]; intros X.
  - cbn. lia.
  - unfold collect in *. cbn [fold_left new_counts sum_list foldr].
    rewrite IH.
    pose proof (HarvestBehaviour.new_string_count_sizes TRANSLATABLE_KEYS f.2 X).
    unfold id. lia.
Qed.

Lemma collect_no_empty_string (files : list (pystr * option json)) :
  [] ∉ collect files ∅.
Proof.
  intros [H|(n & d & _ & H)]%elem_of_collect; [by apply elem_of_empty in H|].
  by destruct (harvested_trimmed _ _ _ H).
Qed.

Lemma generate_pot_file_total (creation_date : pystr) (strings : gset pystr)
    (source_files : list pystr) :
  [] ∉ strings ->
  (generate_pot_file creation_date strings source_files).2 = size strings.
Proof.
  intros Hne. unfold generate_pot_file. cbn [snd].
  rewrite sorted_perm.
  replace (strings ∖ {[ [] ]}) with strings; [done|].
  apply set_eq. intros s. rewrite elem_of_difference, elem_of_singleton.
  split; [|tauto]. intros Hs. split; [done|]. by intros ->.
Qed.

Lemma log_regroup (a b c d e files rest : list event) (x : event) :
  (a ++ b ++ c ++ d ++ e ++ files ++ [x]) ++ rest
  = (a ++ b ++ c ++ d ++ e) ++ files ++ x :: rest.
Proof. by rewrite <- !app_assoc. Qed.

Section RunProperties.
Variable fs : pystr -> option node.
Variable creation_date : pystr.
Variable path_str path_parent : pystr -> pystr.
Variable failure_of : pystr -> load_failure.
Variable mkdir_ok open_ok : pystr -> bool.

(** X18.  With at least one file to process the script opens the
    discovered files in order.  If then the directory of the output can be
    created, the output can be opened and the template can be encoded, it
    creates the directory, writes the complete template once and exits with
    status 0.  If the directory cannot be created it exits with status 1
    having only opened the files; if the output cannot be opened, having also
    created the directory; if the template cannot be encoded, leaving in the
    output an encodable proper start of the template.  The template is that
    of the strings harvested from the files that could be loaded. *)
Theorem successful_run (prog output_file input_dir : pystr)
    (entries : list (pystr * option json)) :
  fs input_dir = Some (Directory entries) ->
  eligible entries <> [] ->
  let names := List.map fst (eligible entries) in
  let parent := path_parent output_file in
  let strings := collect (eligible entries) ∅ in
  let content := (generate_pot_file creation_date strings names).1 in
  let outcome := run fs creation_date path_str path_parent failure_of mkdir_ok open_ok
                   [prog; output_file; input_dir] in
  (forall s, s ∈ strings
             <-> exists name data,
                   (name, Some data) ∈ eligible entries
                   /\ harvested TRANSLATABLE_KEYS (unwrap_data data) s)
  /\ (can_mkdir fs mkdir_ok parent = true ->
      can_open fs open_ok output_file = true ->
      utf8_encodable content = true ->
      outcome.1 = 0%Z
      /\ effects outcome.2
         = List.map Open names ++ [Mkdir parent; WriteFile output_file content])
  /\ (can_mkdir fs mkdir_ok parent = false ->
      outcome.1 = 1%Z /\ effects outcome.2 = List.map Open names)
  /\ (can_mkdir fs mkdir_ok parent = true ->
      can_open fs open_ok output_file = false ->
      outcome.1 = 1%Z /\ effects outcome.2 = List.map Open names ++ [Mkdir parent])
  /\ (can_mkdir fs mkdir_ok parent = true ->
      can_open fs open_ok output_file = true ->
      utf8_encodable content = false ->
      outcome.1 = 1%Z
      /\ exists written rest,
           effects outcome.2
           = List.map Open names ++ [Mkdir parent; WriteFile output_file written]
           /\ content = written ++ rest /\ rest <> []
           /\ utf8_encodable written = true).
Proof.
  intros Hfs Hfiles names parent strings content outcome.
  subst outcome. rewrite (run_directory_files _ _ _ _ _ _ _ _ _ _ _ Hfs Hfiles).
  cbv zeta. cbn [fst snd]. rewrite effects_app, effects_processing_log.
  fold names. unfold output_outcome. fold names strings parent.
  destruct (write_chunks_spec (pot_writes creation_date strings names))
    as (Hwritten & Hcomplete & rest & Hrest & Hdone & Hpart).
  rewrite pot_writes_concat in Hcomplete, Hrest. fold content in Hcomplete, Hrest.
  split_and!.
  - intros s. unfold strings. rewrite elem_of_collect. split; [|by right].
    intros [H|H]; [by apply elem_of_empty in H|done].
  - intros -> -> Hcontent. cbn [negb]. rewrite Hcomplete, Hcontent. cbn [fst snd].
    split; [done|]. rewrite Hcontent in Hcomplete. specialize (Hdone Hcomplete).
    subst rest. rewrite app_nil_r in Hrest. by rewrite <- Hrest.
  - intros ->. cbn [negb fst snd]. by rewrite app_nil_r.
  - by intros -> ->.
  - intros -> -> Hcontent. cbn [negb]. rewrite Hcomplete, Hcontent. cbn [fst snd].
    split; [done|]. rewrite Hcontent in Hcomplete.
    eexists _, rest. split_and!; [reflexivity|done|by apply Hpart|done].
Qed.

(** X19.  Whatever the arguments and the file system, the script exits
    with status 0 or 1.  When the arguments do not name an input directory it
    exits with status 1 having only printed.  Every file it opens is an entry
    of the input directory whose name ends in [.json] and is not on the skip
    list.  The only file it writes is the one named by its first argument,
    never where the file system has a directory, and what it writes can be
    encoded.  When it exits with status 0 it has either only printed or
    written the complete template. *)
Theorem effects_are_confined (argv : list pystr) :
  let outcome := run fs creation_date path_str path_parent failure_of mkdir_ok open_ok
                   argv in
  (outcome.1 = 0%Z \/ outcome.1 = 1%Z)
  /\ ((forall prog output_file input_dir entries,
          argv = [prog; output_file; input_dir] ->
          fs input_dir <> Some (Directory entries)) ->
      outcome.1 = 1%Z /\ effects outcome.2 = [])
  /\ (forall name, Open name ∈ outcome.2 ->
        endswith name (str ".json") = true /\ (name ∉ SKIP_FILES)
        /\ exists prog output_file input_dir entries content,
             argv = [prog; output_file; input_dir]
             /\ fs input_dir = Some (Directory entries)
             /\ (name, content) ∈ entries)
  /\ (forall path written, WriteFile path written ∈ outcome.2 ->
        is_directory (fs path) = false
        /\ utf8_encodable written = true
        /\ exists prog input_dir, argv = [prog; path; input_dir])
  /\ (outcome.1 = 0%Z ->
      effects outcome.2 = []
      \/ exists prog output_file input_dir entries,
           argv = [prog; output_file; input_dir]
           /\ fs input_dir = Some (Directory entries)
           /\ WriteFile output_file
                (generate_pot_file creation_date (collect (eligible entries) ∅)
                   (List.map fst (eligible entries))).1
                ∈ outcome.2).
Proof.
  intros outcome. subst outcome.
  assert (forall (log : list event) (e : event),
             Forall (fun e => is_print e = true) log -> e ∈ log -> is_print e = true)
    as Hprint.
  { intros log e Hlog He. rewrite Forall_forall in Hlog. by apply Hlog. }
  destruct (run_cases fs creation_date path_str path_parent failure_of mkdir_ok open_ok argv)
    as [(log & -> & Hlog & Hnodir)
       |(prog & output_file & input_dir & entries & -> & Hfs
         & [(Hnone & log & -> & Hlog)|(Hsome & ->)])]; cbv zeta; cbn [fst snd].
  - split_and!; [by right | by intros; split; [|apply effects_prints] | | |done].
    + intros name Hin. by apply (Hprint _ _ Hlog) in Hin.
    + intros path content Hin. by apply (Hprint _ _ Hlog) in Hin.
  - split_and!; [by left | | | |by intros; left; apply effects_prints].
    + intros Hnodir. by destruct (Hnodir _ _ _ entries eq_refl).
    + intros name Hin. by apply (Hprint _ _ Hlog) in Hin.
    + intros path content Hin. by apply (Hprint _ _ Hlog) in Hin.
  - set (names := List.map fst (eligible entries)).
    set (strings := collect (eligible entries) ∅).
    destruct (write_chunks_spec (pot_writes creation_date strings names))
      as (Hwritten & Hcomplete & rest & Hrest & Hdone & Hpart).
    rewrite pot_writes_concat in Hcomplete, Hrest.
    assert (forall e,
               e ∈ (output_outcome fs creation_date path_str path_parent mkdir_ok open_ok
                      output_file (eligible entries)).2 ->
               match e with
               | Open _ => False
               | WriteFile path written =>
                 path = output_file /\ is_directory (fs output_file) = false
                 /\ written = (write_chunks (pot_writes creation_date strings names)).1
               | _ => True
               end) as Hout.
    { intros e. unfold output_outcome, can_open. fold names strings.
      destruct (can_mkdir _ _ _); cbn [negb snd]; [|by intros ?%elem_of_nil].
      destruct (is_directory (fs output_file)); cbn [negb andb snd].
      { intros [->|?%elem_of_nil]%elem_of_cons; done. }
      destruct (open_ok output_file); cbn [negb andb snd].
      2:{ intros [->|?%elem_of_nil]%elem_of_cons; done. }
      destruct (write_chunks _).2; cbn [snd];
        repeat (intros [->|He]%elem_of_cons; [done|revert He]);
        by intros ?%elem_of_nil. }
    split_and!.
    + unfold output_outcome.
      destruct (can_mkdir _ _ _); cbn [negb fst]; [|by right].
      destruct (can_open _ _ _); cbn [negb fst]; [|by right].
      destruct (write_chunks _).2; cbn [fst]; [by left|by right].
    + intros Hnodir. by destruct (Hnodir _ _ _ entries eq_refl).
    + intros name [Hin|Hin]%elem_of_app; [|by apply Hout in Hin].
      assert (Open name ∈ effects (processing_log path_str failure_of input_dir entries))
        as Heff.
      { apply list_elem_of_In, filter_In. split; [by apply list_elem_of_In|done]. }
      rewrite effects_processing_log in Heff.
      apply list_elem_of_fmap in Heff as (n & [= ->] & Hn).
      apply list_elem_of_fmap in Hn as ([n' content] & -> & He).
      apply elem_of_eligible in He as (He & Hjson & Hskip).
      split_and!; [done..|]. by exists prog, output_file, input_dir, entries, content.
    + intros path written [Hin|Hin]%elem_of_app.
      { assert (WriteFile path written
                  ∈ effects (processing_log path_str failure_of input_dir entries))
          as Heff.
        { apply list_elem_of_In, filter_In. split; [by apply list_elem_of_In|done]. }
        rewrite effects_processing_log in Heff.
        by apply list_elem_of_fmap in Heff as (n & [=] & _). }
      apply Hout in Hin as (-> & Hdir & ->).
      split_and!; [done..|]. by exists prog, input_dir.
    + intros Hzero. right. exists prog, output_file, input_dir, entries.
      split_and!; [done..|]. apply elem_of_app. right.
      revert Hzero. unfold output_outcome. fold names strings.
      destruct (can_mkdir _ _ _); cbn [negb fst snd]; [|done].
      destruct (can_open _ _ _); cbn [negb fst snd]; [|done].
      destruct (write_chunks _).2 eqn:Hc; cbn [fst snd]; [|done].
      intros _. rewrite <- Hc in Hdone. rewrite Hc in Hdone.
      specialize (Hdone eq_refl). subst rest. rewrite app_nil_r in Hrest.
      rewrite Hrest. right. by left.
Qed.

(** X20.  In a run that processes files and exits with status 0, the
    counts printed file by file (each after the opening of the file and, for
    a file that cannot be loaded, its error line) add up to the total printed
    at the end, which is the number of distinct strings gathered. *)
Theorem counts_add_up (prog output_file input_dir : pystr)
    (entries : list (pystr * option json)) :
  fs input_dir = Some (Directory entries) ->
  eligible entries <> [] ->
  (run fs creation_date path_str path_parent failure_of mkdir_ok open_ok
       [prog; output_file; input_dir]).1 = 0%Z ->
  exists before counts total content,
    (run fs creation_date path_str path_parent failure_of mkdir_ok open_ok
         [prog; output_file; input_dir]).2
    = before
        ++ file_events failure_of (eligible entries) counts
        ++ [Print []; Mkdir (path_parent output_file); WriteFile output_file content;
            Print (str "Generated '" ++ path_str output_file ++ str "' with "
                   ++ show_nat total ++ str " unique translatable strings.")]
    /\ length counts = length (eligible entries)
    /\ sum_list counts = total
    /\ total = size (collect (eligible entries) ∅)
    /\ content = (generate_pot_file creation_date (collect (eligible entries) ∅)
                    (List.map fst (eligible entries))).1.
Proof.
  intros Hfs Hfiles. rewrite (run_directory_files _ _ _ _ _ _ _ _ _ _ _ Hfs Hfiles).
  cbv zeta. cbn [fst snd]. unfold output_outcome, processing_log, generated_line.
  destruct (write_chunks_spec (pot_writes creation_date (collect (eligible entries) ∅)
                                 (List.map fst (eligible entries))))
    as (_ & _ & rest & Hrest & Hdone & _).
  rewrite pot_writes_concat in Hrest.
  destruct (can_mkdir _ _ _); cbn [negb fst snd]; [|done].
  destruct (can_open _ _ _); cbn [negb fst snd]; [|done].
  destruct (write_chunks _).2; cbn [fst snd]; [|done]. intros _.
  specialize (Hdone eq_refl). subst rest. rewrite app_nil_r in Hrest.
  eexists (_ ++ _ ++ _ ++ _ ++ _), (new_counts (eligible entries) ∅), _, _. split_and!.
  - apply log_regroup.
  - apply new_counts_length.
  - pose proof (collect_size (eligible entries) ∅) as Hsize.
    rewrite size_empty in Hsize. simpl in Hsize. rewrite <- Hsize.
    symmetry. apply generate_pot_file_total, collect_no_empty_string.
  - apply generate_pot_file_total, collect_no_empty_string.
  - by rewrite Hrest.
Qed.
End RunProperties.

Lemma successful_run_witness :
  (let outcome := run sample_fs (str "2025-01-01 00:00+0000") (fun p => p)
                    (fun _ => str "translation") no_detail permitted permitted
                    [str "extract-data-strings.py"; str "out.pot"; str "json"] in
   outcome.1 = 0%Z
   /\ effects outcome.2
      = [ Open (str "a.json"); Open (str "b.json"); Mkdir (str "translation");
          WriteFile (str "out.pot")
            (generate_pot_file (str "2025-01-01 00:00+0000")
               {[ str "X"; str "Coffee"; str "drink"; str "hot" ]}
               [str "a.json"; str "b.json"]).1 ])
  /\ (let outcome := run sample_fs (str "2025-01-01 00:00+0000") (fun p => p)
                       (fun _ => str "translation") no_detail permitted permitted
                       [str "extract-data-strings.py"; str "json"; str "json"] in
      outcome.1 = 1%Z
      /\ effects outcome.2
         = [ Open (str "a.json"); Open (str "b.json"); Mkdir (str "translation") ])
  /\ (let outcome := run sample_fs (str "2025-01-01 00:00+0000") (fun p => p)
                       (fun _ => str "translation") no_detail (fun _ => false) permitted
                       [str "extract-data-strings.py"; str "out.pot"; str "json"] in
      outcome.1 = 1%Z
      /\ effects outcome.2 = [ Open (str "a.json"); Open (str "b.json") ])
  /\ (let outcome := run (holding surrogate_directory) (str "2025-01-01 00:00+0000")
                       (fun p => p) (fun _ => str "translation")
                       no_detail permitted permitted
                       [str "extract-data-strings.py"; str "out.pot"; str "json"] in
      outcome.1 = 1%Z
      /\ exists written rest,
           effects outcome.2
           = [ Open (str "a.json"); Mkdir (str "translation");
               WriteFile (str "out.pot") written ]
           /\ (generate_pot_file (str "2025-01-01 00:00+0000") {[ [55296%N] ]}
                 [str "a.json"]).1 = written ++ rest
           /\ rest <> []
           /\ utf8_encodable written = true).
Proof.
  assert (eligible [ (str "b.json", Some coffee); (str "countries.json", None);
                     (str "a.json", Some wrapped_list); (str "notes.txt", None) ] <> [])
    as Hsample.
  { intros H. vm_compute in H. discriminate H. }
  assert (eligible [ (str "a.json", Some (JDict [(str "name", JStr [55296%N])])) ] <> [])
    as Hsurrogate.
  { intros H. vm_compute in H. discriminate H. }
  split_and!.
  - pose proof (successful_run sample_fs (str "2025-01-01 00:00+0000") (fun p => p)
                  (fun _ => str "translation") no_detail permitted permitted
                  (str "extract-data-strings.py") (str "out.pot") (str "json") _
                  eq_refl Hsample) as (_ & H & _).
    specialize (H eq_refl eq_refl eq_refl). vm_compute in H. vm_compute. exact H.
  - pose proof (successful_run sample_fs (str "2025-01-01 00:00+0000") (fun p => p)
                  (fun _ => str "translation") no_detail permitted permitted
                  (str "extract-data-strings.py") (str "json") (str "json") _
                  eq_refl Hsample) as (_ & _ & _ & H & _).
    specialize (H eq_refl eq_refl). vm_compute in H. vm_compute. exact H.
  - pose proof (successful_run sample_fs (str "2025-01-01 00:00+0000") (fun p => p)
                  (fun _ => str "translation") no_detail (fun _ => false) permitted
                  (str "extract-data-strings.py") (str "out.pot") (str "json") _
                  eq_refl Hsample) as (_ & _ & H & _).
    specialize (H eq_refl). vm_compute in H. vm_compute. exact H.
  - pose proof (successful_run (holding surrogate_directory)
                  (str "2025-01-01 00:00+0000") (fun p => p)
                  (fun _ => str "translation") no_detail permitted permitted
                  (str "extract-data-strings.py") (str "out.pot") (str "json") _
                  eq_refl Hsurrogate) as (_ & _ & _ & _ & H).
    specialize (H eq_refl eq_refl eq_refl). vm_compute in H. vm_compute. exact H.
Defined.

Lemma effects_are_confined_witness :
  (forall path written,
      WriteFile path written
      ∉ (run sample_fs (str "2025-01-01 00:00+0000") (fun p => p)
           (fun _ => str "translation") no_detail permitted permitted
           [str "extract-data-strings.py"; str "json"; str "json"]).2)
  /\ (let outcome := run sample_fs (str "2025-01-01 00:00+0000") (fun p => p)
                       (fun _ => str "translation") no_detail permitted permitted
                       [str "extract-data-strings.py"; str "out.pot"; str "missing"] in
      outcome.1 = 1%Z /\ effects outcome.2 = []).
Proof.
  split.
  - intros path written Hin.
    destruct (effects_are_confined sample_fs (str "2025-01-01 00:00+0000") (fun p => p)
                (fun _ => str "translation") no_detail permitted permitted
                [str "extract-data-strings.py"; str "json"; str "json"])
      as (_ & _ & _ & Hwrite & _).
    destruct (Hwrite path written Hin) as (Hdir & _ & prog & input_dir & Hargv).
    injection Hargv as _ <- _. vm_compute in Hdir. discriminate Hdir.
  - apply (effects_are_confined sample_fs (str "2025-01-01 00:00+0000") (fun p => p)
             (fun _ => str "translation") no_detail permitted permitted
             [str "extract-data-strings.py"; str "out.pot"; str "missing"]).
    intros prog output_file input_dir entries Hargv.
    injection Hargv as _ _ <-. intros H. vm_compute in H. discriminate H.
Defined.

Lemma counts_add_up_witness :
  exists before counts total content,
    (run (holding broken_directory) (str "2025-01-01 00:00+0000") (fun p => p)
         (fun _ => str "translation") no_detail permitted permitted
         [str "extract-data-strings.py"; str "out.pot"; str "json"]).2
    = before
        ++ file_events no_detail [ (str "a.json", None); (str "b.json", Some coffee) ]
             counts
        ++ [Print []; Mkdir (str "translation"); WriteFile (str "out.pot") content;
            Print (str "Generated 'out.pot' with " ++ show_nat total
                   ++ str " unique translatable strings.")]
    /\ length counts = 2%nat
    /\ sum_list counts = total
    /\ total = 3%nat
    /\ content = (generate_pot_file (str "2025-01-01 00:00+0000")
                    {[ str "Coffee"; str "drink"; str "hot" ]}
                    [str "a.json"; str "b.json"]).1.
Proof.
  assert (eligible [ (str "b.json", Some coffee); (str "a.json", None) ] <> []) as Hfiles.
  { intros H. vm_compute in H. discriminate H. }
  pose proof (counts_add_up (holding broken_directory) (str "2025-01-01 00:00+0000")
                (fun p => p) (fun _ => str "translation") no_detail permitted permitted
                (str "extract-data-strings.py") (str "out.pot") (str "json") _
                eq_refl Hfiles) as H.
  assert ((run (holding broken_directory) (str "2025-01-01 00:00+0000") (fun p => p)
             (fun _ => str "translation") no_detail permitted permitted
             [str "extract-data-strings.py"; str "out.pot"; str "json"]).1 = 0%Z)
    as Hstatus by (vm_compute; reflexivity).
  specialize (H Hstatus). vm_compute in H. vm_compute. exact H.
Defined.

Lemma filter_permutation {A : Type} (f : A -> bool) (l1 l2 : list A) :
  l1 ≡ₚ l2 -> List.filter f l1 ≡ₚ List.filter f l2.
Proof.
  induction 1 as [|x l1 l2 _ IH|x y l|l1 l2 l3 _ IH1 _ IH2]; cbn [List.filter].
  - done.
  - destruct (f x); by rewrite IH.
  - destruct (f x), (f y); try done. apply Permutation_swap.
  - by rewrite IH1.
Qed.

Lemma fst_injective_on {A B : Type} (l : list (A * B)) (x y : A * B) :
  NoDup (List.map fst l) -> x ∈ l -> y ∈ l -> x.1 = y.1 -> x = y.
Proof.
  induction l as [|z l IH]; cbn [List.map]; intros Hnd Hx Hy Hfst.
  - by apply elem_of_nil in Hx.
  - apply NoDup_cons in Hnd as [Hz Hnd].
    apply elem_of_cons in Hx as [->|Hx]; apply elem_of_cons in Hy as [->|Hy].
    + done.
    + destruct Hz. rewrite Hfst. by apply list_elem_of_In, in_map, list_elem_of_In.
    + destruct Hz. rewrite <- Hfst. by apply list_elem_of_In, in_map, list_elem_of_In.
    + by apply IH.
Qed.

Lemma sorted_glob_permutation (entries entries' : list (pystr * option json)) :
  entries ≡ₚ entries' ->
  NoDup (List.map fst entries) ->
  sorted_by fst (glob_json entries) = sorted_by fst (glob_json entries').
Proof.
  intros Hperm Hnames.
  assert (Transitive (key_le (fst : pystr * option json -> pystr))) as Htrans.
  { intros x y z. apply str_le_trans. }
  apply (Sorted_unique_strong (key_le fst)).
  - intros x1 x2 Hx1 Hx2 H12 H21.
    rewrite sorted_by_perm in Hx1, Hx2.
    apply list_elem_of_In, filter_In in Hx1 as [Hx1 _].
    apply list_elem_of_In, filter_In in Hx2 as [Hx2 _].
    apply list_elem_of_In in Hx1, Hx2. rewrite <- Hperm in Hx2.
    apply (fst_injective_on entries); [done..|]. by apply str_le_antisym.
  - apply sorted_by_sorted.
  - apply sorted_by_sorted.
  - rewrite !sorted_by_perm. by apply filter_permutation.
Qed.

(** X22.  The order in which the directory lists its entries does not
    matter: in two file systems that agree on whether the output path is a
    directory and on whether the directory of the output is a file, two
    listings of the same entries, with distinct names, give the same status
    and the same events. *)
Theorem listing_order_irrelevant (fs fs' : pystr -> option node) (creation_date : pystr)
    (path_str path_parent : pystr -> pystr)
    (failure_of : pystr -> load_failure) (mkdir_ok open_ok : pystr -> bool)
    (prog output_file input_dir : pystr)
    (entries entries' : list (pystr * option json)) :
  fs input_dir = Some (Directory entries) ->
  fs' input_dir = Some (Directory entries') ->
  is_directory (fs output_file) = is_directory (fs' output_file) ->
  is_file (fs (path_parent output_file)) = is_file (fs' (path_parent output_file)) ->
  entries ≡ₚ entries' ->
  NoDup (List.map fst entries) ->
  run fs creation_date path_str path_parent failure_of mkdir_ok open_ok
      [prog; output_file; input_dir]
  = run fs' creation_date path_str path_parent failure_of mkdir_ok open_ok
        [prog; output_file; input_dir].
Proof.
  intros Hfs Hfs' Hout Hparent Hperm Hnames.
  pose proof (sorted_glob_permutation _ _ Hperm Hnames) as Hsame.
  assert (eligible entries = eligible entries') as Helig.
  { unfold eligible. by rewrite Hsame. }
  assert (skip_events entries = skip_events entries') as Hskip.
  { unfold skip_events. by rewrite Hsame. }
  destruct (decide (eligible entries = [])) as [Hnone|Hsome].
  - rewrite (run_directory_empty fs _ _ _ _ _ _ _ _ _ entries Hfs Hnone).
    rewrite Helig in Hnone.
    rewrite (run_directory_empty fs' _ _ _ _ _ _ _ _ _ entries' Hfs' Hnone).
    by rewrite Hskip.
  - rewrite (run_directory_files fs _ _ _ _ _ _ _ _ _ entries Hfs Hsome).
    rewrite Helig in Hsome.
    rewrite (run_directory_files fs' _ _ _ _ _ _ _ _ _ entries' Hfs' Hsome).
    unfold output_outcome, processing_log, can_mkdir, can_open.
    by rewrite Helig, Hskip, Hout, Hparent.
Qed.

Lemma listing_order_irrelevant_witness :
  run (holding (Directory [(str "b.json", Some coffee); (str "a.json", None)]))
      [] (fun p => p) (fun _ => str "translation") no_detail permitted permitted
      [str "x"; str "out.pot"; str "json"]
  = run (holding (Directory [(str "a.json", None); (str "b.json", Some coffee)]))
        [] (fun p => p) (fun _ => str "translation") no_detail permitted permitted
        [str "x"; str "out.pot"; str "json"].
Proof.
  apply (listing_order_irrelevant _ _ [] (fun p => p) _ _ _ _ _ _ (str "json")
           [(str "b.json", Some coffee); (str "a.json", None)]
           [(str "a.json", None); (str "b.json", Some coffee)]).
  - reflexivity.
  - reflexivity.
  - reflexivity.
  - reflexivity.
  - apply Permutation_swap.
  - apply (bool_decide_unpack _). by vm_compute.
Defined.

End TemplateBehaviour.
